(** * BiCare 360: derived fields and validation rules of patient and
      discharge records

    A shallow embedding of the rules implemented in
    [backend/apps/patients] and [backend/apps/enrollment]:

    - [PyDate]: the calendar arithmetic of Python's [datetime.date] that
      the models rely on (ordinals, subtraction, comparison);
    - [Patients]: [Patient.age], [AddressSerializer.validate] and
      [PatientDetailSerializer.update] over a store of patients, addresses
      and emergency contacts;
    - [Enrollment]: [DischargeSummary.save],
      [DischargeSummaryCreateSerializer.validate], the create / update
      entry points of [DischargeSummaryViewSet] and the ordering of its
      listings. *)

From Stdlib Require Import ZArith Lia Bool List Ascii String.
From stdpp Require Import gmap strings list fin_maps sorting.

Import ListNotations.
Local Open Scope Z_scope.

(** ** Python's [datetime.date] *)

Module PyDate.

Record date := Date { year : Z; month : Z; day : Z }.

#[global] Instance date_eq_dec : EqDecision date.
Proof. solve_decision. Defined.

(** [_DAYS_IN_MONTH]; index 0 is a placeholder. *)
Definition DAYS_IN_MONTH : list Z :=
  [-1; 31; 28; 31; 30; 31; 30; 31; 31; 30; 31; 30; 31].

(** [_DAYS_BEFORE_MONTH], built by the module-level loop
    [dbm = 0; for dim in _DAYS_IN_MONTH[1:]: append(dbm); dbm += dim]. *)
Definition DAYS_BEFORE_MONTH : list Z :=
  fst (fold_left (fun '(acc, dbm) dim => (acc ++ [dbm], dbm + dim))
                 (tl DAYS_IN_MONTH) ([-1], 0)).

(** [year % 4 == 0 and (year % 100 != 0 or year % 400 == 0)] *)
Definition is_leap (y : Z) : bool :=
  (y mod 4 =? 0) && (negb (y mod 100 =? 0) || (y mod 400 =? 0)).

(** [y = year - 1; y*365 + y//4 - y//100 + y//400] *)
Definition days_before_year (y : Z) : Z :=
  let y' := y - 1 in y' * 365 + y' / 4 - y' / 100 + y' / 400.

Definition days_in_month (y m : Z) : Z :=
  if (m =? 2) && is_leap y then 29
  else nth (Z.to_nat m) DAYS_IN_MONTH 0.

(** [_DAYS_BEFORE_MONTH[month] + (month > 2 and _is_leap(year))] *)
Definition days_before_month (y m : Z) : Z :=
  nth (Z.to_nat m) DAYS_BEFORE_MONTH 0
  + (if (2 <? m) && is_leap y then 1 else 0).

Definition ymd2ord (y m d : Z) : Z :=
  days_before_year y + days_before_month y m + d.

(** The range checks of the [date] constructor. *)
Definition valid_dateb (d : date) : bool :=
  (1 <=? year d) && (year d <=? 9999)
  && (1 <=? month d) && (month d <=? 12)
  && (1 <=? day d) && (day d <=? days_in_month (year d) (month d)).

Definition valid_date (d : date) : Prop := valid_dateb d = true.

Definition toordinal (d : date) : Z := ymd2ord (year d) (month d) (day d).

(** [(d1 - d2).days]: the difference of the two ordinals. *)
Definition sub_days (d1 d2 : date) : Z := toordinal d1 - toordinal d2.

(** Python's ordering of tuples of integers: the first position where
    the two differ decides; if there is none the shorter tuple is the
    smaller. *)
Fixpoint tuple_lt (a b : list Z) : bool :=
  match a, b with
  | [], [] => false
  | [], _ :: _ => true
  | _ :: _, [] => false
  | x :: a', y :: b' => if x =? y then tuple_lt a' b' else x <? y
  end.

(** [date.__lt__] compares the [(year, month, day)] triples. *)
Definition date_lt (d1 d2 : date) : bool :=
  tuple_lt [year d1; month d1; day d1] [year d2; month d2; day d2].

Definition days_in_year (y : Z) : Z := if is_leap y then 366 else 365.

End PyDate.

Export PyDate.

(** ** Values carried by validated data and by model attributes *)

Inductive value :=
| VNone                      (* Python's [None] *)
| VBool (b : bool)
| VInt (z : Z)
| VStr (s : string)
| VDate (d : date)
| VDecimal (micro : Z)       (* a [Decimal] with six places, in millionths *)
| VDateTime (t : Z).         (* a timestamp, in clock ticks *)

#[global] Instance value_eq_dec : EqDecision value.
Proof. solve_decision. Defined.

(** [x is None] *)
Definition is_none (v : value) : bool :=
  match v with VNone => true | _ => false end.

(** [data.get(key)]: [None] when the key is missing. *)
Definition dict_get (data : gmap string value) (key : string) : value :=
  default VNone (data !! key).

(** [serializers.ValidationError]: raised with a plain message (reported
    under [non_field_errors]) or with a dict naming the field. *)
Inductive ValidationError :=
| NonFieldError (message : string)
| FieldError (field message : string).

(** ** apps.patients *)

Module Patients.

(** *** models.py *)

(** [Patient.age]. The property reads [date.today()]; the clock is made
    an argument here. A Python [bool] subtracted from an [int] counts
    as 0 or 1. *)
Definition age (date_of_birth today : date) : Z :=
  year today - year date_of_birth
  - Z.b2z (tuple_lt [month today; day today]
                    [month date_of_birth; day date_of_birth]).

(** Rows of the three tables. Only [EmergencyContact] and [Address]
    carry a foreign key to the patient. *)
Record Address := {
  address_id : nat;
  address_patient : nat;
  address_attrs : gmap string value }.

Record EmergencyContact := {
  contact_id : nat;
  contact_patient : nat;
  contact_attrs : gmap string value }.

(** An in-memory [Patient] instance: primary key and attributes. *)
Record Patient := {
  patient_id : nat;
  patient_attrs : gmap string value }.

(** The record store behind the three models. Primary keys are handed
    out by counters that never go back. *)
Record Store := {
  patients : gmap nat (gmap string value);
  addresses : list Address;
  emergency_contacts : list EmergencyContact;
  next_address_id : nat;
  next_contact_id : nat }.

(** Column defaults of [EmergencyContact] for attributes the caller
    leaves out: the declared one, and the empty string every character
    column falls back to. *)
Definition contact_defaults : gmap string value :=
  list_to_map
    [("full_name", VStr ""); ("relationship", VStr "");
     ("phone_number", VStr ""); ("alt_phone_number", VStr "");
     ("is_primary", VBool false)]%string.

(** Column defaults of [Address]: the empty string for a character or
    text column, [None] for the two nullable coordinates. *)
Definition address_defaults : gmap string value :=
  list_to_map
    [("province", VStr ""); ("district", VStr ""); ("sector", VStr "");
     ("cell", VStr ""); ("village", VStr "");
     ("latitude", VNone); ("longitude", VNone);
     ("street_address", VStr ""); ("landmarks", VStr "")]%string.

(** [auto_now_add] and [auto_now] columns. *)
Definition stamp_created (now : Z) (attrs : gmap string value) :=
  <["created_at" := VDateTime now]> (<["updated_at" := VDateTime now]> attrs).

Definition stamp_updated (now : Z) (attrs : gmap string value) :=
  <["updated_at" := VDateTime now]> attrs.

(** [instance.save()] of a [Patient]. *)
Definition Patient_save (now : Z) (st : Store) (instance : Patient)
  : Store * Patient :=
  let attrs := stamp_updated now (patient_attrs instance) in
  ({| patients := <[patient_id instance := attrs]> (patients st);
      addresses := addresses st;
      emergency_contacts := emergency_contacts st;
      next_address_id := next_address_id st;
      next_contact_id := next_contact_id st |},
   {| patient_id := patient_id instance; patient_attrs := attrs |}).

(** [hasattr(instance, "address")]: the one-to-one reverse accessor
    finds a row or raises. *)
Definition has_address (st : Store) (instance : Patient) : bool :=
  existsb (fun a => Nat.eqb (address_patient a) (patient_id instance))
          (addresses st).

(** [setattr] of every item on [instance.address], then
    [instance.address.save()]. *)
Definition Address_update (now : Z) (instance : Patient)
    (address_data : gmap string value) (a : Address) : Address :=
  if Nat.eqb (address_patient a) (patient_id instance)
  then {| address_id := address_id a;
          address_patient := address_patient a;
          address_attrs :=
            stamp_updated now (address_data ∪ address_attrs a) |}
  else a.

(** [Address.objects.create(patient=instance, **address_data)]: the row
    carries the given attributes, the column defaults for the others,
    and its two timestamps. *)
Definition Address_create (now : Z) (st : Store) (instance : Patient)
    (address_data : gmap string value) : Store :=
  {| patients := patients st;
     addresses := addresses st ++
       [{| address_id := next_address_id st;
           address_patient := patient_id instance;
           address_attrs :=
             stamp_created now (address_data ∪ address_defaults) |}];
     emergency_contacts := emergency_contacts st;
     next_address_id := S (next_address_id st);
     next_contact_id := next_contact_id st |}.

(** The contact rows of a patient, in the order of the table: the rows
    that [instance.emergency_contacts.all()] ranges over. The order of
    [EmergencyContact.Meta.ordering], in which the accessor hands them
    out, is not applied here. *)
Definition contacts_of (st : Store) (pk : nat) : list EmergencyContact :=
  filter (fun c => contact_patient c = pk) (emergency_contacts st).

(** [instance.emergency_contacts.all().delete()] *)
Definition delete_contacts (st : Store) (instance : Patient) : Store :=
  {| patients := patients st;
     addresses := addresses st;
     emergency_contacts :=
       filter (fun c => contact_patient c ≠ patient_id instance)
              (emergency_contacts st);
     next_address_id := next_address_id st;
     next_contact_id := next_contact_id st |}.

(** [EmergencyContact.objects.create(patient=instance, **contact_data)] *)
Definition EmergencyContact_create (now : Z) (instance : Patient)
    (st : Store) (contact_data : gmap string value) : Store :=
  {| patients := patients st;
     addresses := addresses st;
     emergency_contacts := emergency_contacts st ++
       [{| contact_id := next_contact_id st;
           contact_patient := patient_id instance;
           contact_attrs :=
             stamp_created now (contact_data ∪ contact_defaults) |}];
     next_address_id := next_address_id st;
     next_contact_id := S (next_contact_id st) |}.

(** *** serializers.py *)

(** [AddressSerializer.validate] *)
Definition AddressSerializer_validate (data : gmap string value)
  : ValidationError + gmap string value :=
  let latitude := dict_get data "latitude" in
  let longitude := dict_get data "longitude" in
  if (negb (is_none latitude) && is_none longitude)
     || (is_none latitude && negb (is_none longitude))
  then inl (NonFieldError
              "Both latitude and longitude must be provided together.")
  else inr data.

(** Validated data handed to [PatientDetailSerializer.update]: the
    patient's own attributes and the two nested entries, each possibly
    missing ([address] may also be an explicit null, which [pop] with a
    [None] default does not tell apart). *)
Record PatientData := {
  fields : gmap string value;
  address : option (gmap string value);
  emergency_contacts_data : option (list (gmap string value)) }.

(** [PatientDetailSerializer.update] *)
Definition update (now : Z) (st : Store) (instance : Patient)
    (validated_data : PatientData) : Store * Patient :=
  (* for attr, value in validated_data.items(): setattr(...) *)
  let instance1 :=
    {| patient_id := patient_id instance;
       patient_attrs := fields validated_data ∪ patient_attrs instance |} in
  let '(st1, instance2) := Patient_save now st instance1 in
  (* update or create the address *)
  let st2 :=
    match address validated_data with
    | Some address_data =>
        if has_address st1 instance2
        then {| patients := patients st1;
                addresses :=
                  map (Address_update now instance2 address_data)
                      (addresses st1);
                emergency_contacts := emergency_contacts st1;
                next_address_id := next_address_id st1;
                next_contact_id := next_contact_id st1 |}
        else Address_create now st1 instance2 address_data
    | None => st1
    end in
  (* replace the emergency contacts when the list was given *)
  let st3 :=
    match emergency_contacts_data validated_data with
    | Some contacts =>
        fold_left (EmergencyContact_create now instance2) contacts
                  (delete_contacts st2 instance2)
    | None => st2
    end in
  (st3, instance2).

(** Every stored contact has a key below the counter. *)
Definition store_wf (st : Store) : Prop :=
  Forall (fun c => (contact_id c < next_contact_id st)%nat)
         (emergency_contacts st).

(** The rows [EmergencyContact.objects.create] makes for a payload,
    starting from key [n]. *)
Fixpoint new_contacts (now : Z) (pk : nat) (n : nat)
    (contacts : list (gmap string value)) : list EmergencyContact :=
  match contacts with
  | [] => []
  | contact_data :: rest =>
      {| contact_id := n;
         contact_patient := pk;
         contact_attrs := stamp_created now (contact_data ∪ contact_defaults) |}
      :: new_contacts now pk (S n) rest
  end.

(** *** Sample records *)

Definition sample_contact (name phone : string) : gmap string value :=
  {[ "full_name" := VStr name; "relationship" := VStr "spouse";
     "phone_number" := VStr phone ]}.

(** Patient 1 with two contacts, patient 2 with one. *)
Definition sample_store : Store :=
  {| patients := {[ 1%nat := {[ "first_name" := VStr "John" ]};
                    2%nat := {[ "first_name" := VStr "Jane" ]} ]};
     addresses := [];
     emergency_contacts :=
       [ {| contact_id := 1; contact_patient := 1;
            contact_attrs := sample_contact "Alice" "+250788000001" |};
         {| contact_id := 2; contact_patient := 2;
            contact_attrs := sample_contact "Bob" "+250788000002" |};
         {| contact_id := 3; contact_patient := 1;
            contact_attrs := sample_contact "Carol" "+250788000003" |} ];
     next_address_id := 1;
     next_contact_id := 4 |}.

Definition sample_patient : Patient :=
  {| patient_id := 1; patient_attrs := {[ "first_name" := VStr "John" ]} |}.

Definition sample_payload : PatientData :=
  {| fields := {[ "first_name" := VStr "Johnny" ]};
     address := None;
     emergency_contacts_data :=
       Some [sample_contact "Dave" "+250788000004"] |}.

(** *** Creating patients, the national identifier and the view actions *)

(** The patient table with its key counter. *)
Record Db := {
  store : Store;
  next_patient_id : nat }.

Inductive DbError :=
| IntegrityError (constraint : string).

(** Column defaults of [Patient]: the declared ones, and the empty
    string every character column falls back to. *)
Definition patient_defaults : gmap string value :=
  list_to_map
    [("is_active", VBool true); ("prefers_sms", VBool true);
     ("prefers_whatsapp", VBool false); ("language_preference", VStr "kin");
     ("first_name", VStr ""); ("last_name", VStr "");
     ("first_name_kinyarwanda", VStr ""); ("last_name_kinyarwanda", VStr "");
     ("gender", VStr ""); ("national_id", VStr ""); ("phone_number", VStr "");
     ("alt_phone_number", VStr ""); ("email", VStr "");
     ("blood_type", VStr "")]%string.

(** [Patient.objects.filter(national_id=value).exists()] *)
Definition national_id_taken (st : Store) (v : value) : bool :=
  bool_decide (map_Exists (λ _ attrs, attrs !! "national_id"%string = Some v)
                          (patients st)).

(** [Patient.objects.create] on the validated data: the row gets the column
    defaults and its two timestamps. The table refuses a missing date of
    birth and, [national_id] being declared unique, an identifier that
    another row holds. *)
Definition Patient_objects_create (now : Z) (db : Db)
    (attrs : gmap string value) : DbError + (Db * Patient) :=
  let row := <["enrolled_date" := VDateTime now]>
               (stamp_updated now (attrs ∪ patient_defaults)) in
  if is_none (dict_get row "date_of_birth")
  then inl (IntegrityError "NOT NULL constraint failed: date_of_birth")
  else if national_id_taken (store db) (dict_get row "national_id")
  then inl (IntegrityError "UNIQUE constraint failed: national_id")
  else inr ({| store :=
                 {| patients :=
                      <[next_patient_id db := row]> (patients (store db));
                    addresses := addresses (store db);
                    emergency_contacts := emergency_contacts (store db);
                    next_address_id := next_address_id (store db);
                    next_contact_id := next_contact_id (store db) |};
               next_patient_id := S (next_patient_id db) |},
            {| patient_id := next_patient_id db; patient_attrs := row |}).

(** Truthiness of the popped [address_data]: a dict with some entry. *)
Definition truthy_dict (d : option (gmap string value)) : bool :=
  match d with
  | Some m => negb (bool_decide (m = ∅))
  | None => false
  end.

(** [PatientDetailSerializer.create] *)
Definition create (now : Z) (user : nat) (db : Db)
    (validated_data : PatientData) : DbError + (Db * Patient) :=
  let address_data := address validated_data in
  let contacts := default [] (emergency_contacts_data validated_data) in
  let attrs :=
    <["enrolled_by" := VInt (Z.of_nat user)]> (fields validated_data) in
  match Patient_objects_create now db attrs with
  | inl e => inl e
  | inr (db1, patient) =>
      let st2 :=
        if truthy_dict address_data
        then Address_create now (store db1) patient (default ∅ address_data)
        else store db1 in
      let st3 :=
        fold_left (EmergencyContact_create now patient) contacts st2 in
      inr ({| store := st3; next_patient_id := next_patient_id db1 |},
           patient)
  end.

(** [PatientCreateSerializer.validate_national_id] *)
Definition validate_national_id (st : Store) (v : string)
  : ValidationError + string :=
  if national_id_taken st (VStr v)
  then inl (FieldError "national_id"
              "A patient with this National ID already exists.")
  else inr v.

(** [PatientCreateSerializer.create] *)
Definition PatientCreateSerializer_create (now : Z) (user : nat) (db : Db)
    (validated_data : gmap string value) : DbError + (Db * Patient) :=
  Patient_objects_create now db
    (<["enrolled_by" := VInt (Z.of_nat user)]> validated_data).

(** Validated data of [PatientCreateSerializer] for the payload the
    test suite submits, and a table that already holds one patient,
    created at time 1 by user 7. *)
Definition sample_validated (national_id phone : string)
  : gmap string value :=
  list_to_map
    [("first_name", VStr "John"); ("last_name", VStr "Doe");
     ("date_of_birth", VDate (Date 1990 1 1)); ("gender", VStr "M");
     ("national_id", VStr national_id); ("phone_number", VStr phone)]%string.

Definition sample_db : Db :=
  {| store :=
       {| patients :=
            {[ 1%nat :=
                 <["enrolled_date" := VDateTime 1]>
                   (stamp_updated 1
                      (<["enrolled_by" := VInt 7]>
                         (sample_validated "1000000000000001" "+250780000001")
                       ∪ patient_defaults)) ]};
          addresses := []; emergency_contacts := [];
          next_address_id := 1; next_contact_id := 1 |};
     next_patient_id := 2 |}.

(** No two stored patients share a national identifier. *)
Definition unique_national_ids (st : Store) : Prop :=
  ∀ i j ai aj v,
    patients st !! i = Some ai → patients st !! j = Some aj →
    ai !! "national_id"%string = Some v →
    aj !! "national_id"%string = Some v →
    i = j.

(** The address rows of a patient. *)
Definition addresses_of (st : Store) (pk : nat) : list Address :=
  filter (λ a, address_patient a = pk) (addresses st).

(** [self.get_object()]: the patient under a key, if any. *)
Definition get_object (st : Store) (pk : nat) : option Patient :=
  match patients st !! pk with
  | Some attrs => Some {| patient_id := pk; patient_attrs := attrs |}
  | None => None
  end.

(** The body shared by [PatientViewSet.deactivate] and [.activate]:
    fetch the patient (not-found is [None]), set the flag, save. *)
Definition set_is_active (flag : bool) (now : Z) (st : Store) (pk : nat)
  : option Store :=
  match get_object st pk with
  | Some patient =>
      Some (Patient_save now st
              {| patient_id := patient_id patient;
                 patient_attrs :=
                   <["is_active" := VBool flag]> (patient_attrs patient) |}).1
  | None => None
  end.

Definition deactivate := set_is_active false.
Definition activate := set_is_active true.

(** [Patient.objects.filter(field=v).count()] *)
Definition count_where (field : string) (v : value) (st : Store) : Z :=
  Z.of_nat (size (filter (λ kv, kv.2 !! field = Some v) (patients st))).

Definition GENDER_CHOICES : list string := ["M"; "F"; "O"]%string.

Record Stats := {
  total_patients : Z;
  active_patients : Z;
  inactive_patients : Z;
  by_gender : list (string * Z) }.

(** [PatientViewSet.stats] *)
Definition stats (st : Store) : Stats :=
  let total := Z.of_nat (size (patients st)) in
  let active := count_where "is_active" (VBool true) st in
  {| total_patients := total;
     active_patients := active;
     inactive_patients := total - active;
     by_gender :=
       map (λ gender, (gender, count_where "gender" (VStr gender) st))
           GENDER_CHOICES |}.

End Patients.

(** ** apps.enrollment *)

Module Enrollment.

(** *** models.py *)

(** An in-memory [DischargeSummary] instance. Attributes that have no
    column default may still be unset ([None]) before the first save.
    [texts] holds the remaining character and text columns by name. *)
Record DischargeSummary := {
  pk : option nat;
  patient : option nat;
  hospital : option nat;
  admission_date : option date;
  discharge_date : option date;
  length_of_stay_days : option Z;
  follow_up_required : bool;
  follow_up_timeframe : string;
  risk_level : string;
  created_by : option nat;
  created_at : option Z;
  updated_at : option Z;
  texts : gmap string string }.

(** A stored row: every column is [NOT NULL]. *)
Record Row := {
  row_id : nat;
  row_patient : nat;
  row_hospital : nat;
  row_admission_date : date;
  row_discharge_date : date;
  row_length_of_stay_days : Z;
  row_follow_up_required : bool;
  row_follow_up_timeframe : string;
  row_risk_level : string;
  row_created_by : nat;
  row_created_at : Z;
  row_updated_at : Z;
  row_texts : gmap string string }.

(** The discharge-summary table with its key counter. Patients,
    hospitals and users are referred to by key only. *)
Record Store := {
  table : gmap nat Row;
  next_id : nat }.

Definition empty_store : Store := {| table := ∅; next_id := 1 |}.

Inductive DbError :=
| IntegrityError (constraint : string).

(** The row an instance is written as, if no column is left null. *)
Definition to_row (id : nat) (self : DischargeSummary) : option Row :=
  match patient self, hospital self, admission_date self,
        discharge_date self, length_of_stay_days self,
        created_by self, created_at self, updated_at self with
  | Some p, Some h, Some a, Some d, Some los, Some u, Some c, Some m =>
      Some {| row_id := id; row_patient := p; row_hospital := h;
              row_admission_date := a; row_discharge_date := d;
              row_length_of_stay_days := los;
              row_follow_up_required := follow_up_required self;
              row_follow_up_timeframe := follow_up_timeframe self;
              row_risk_level := risk_level self;
              row_created_by := u; row_created_at := c;
              row_updated_at := m; row_texts := texts self |}
  | _, _, _, _, _, _, _, _ => None
  end.

(** The instance a stored row is loaded as. *)
Definition of_row (r : Row) : DischargeSummary :=
  {| pk := Some (row_id r);
     patient := Some (row_patient r);
     hospital := Some (row_hospital r);
     admission_date := Some (row_admission_date r);
     discharge_date := Some (row_discharge_date r);
     length_of_stay_days := Some (row_length_of_stay_days r);
     follow_up_required := row_follow_up_required r;
     follow_up_timeframe := row_follow_up_timeframe r;
     risk_level := row_risk_level r;
     created_by := Some (row_created_by r);
     created_at := Some (row_created_at r);
     updated_at := Some (row_updated_at r);
     texts := row_texts r |}.

Definition with_length_of_stay (self : DischargeSummary) (los : option Z)
  : DischargeSummary :=
  {| pk := pk self; patient := patient self; hospital := hospital self;
     admission_date := admission_date self;
     discharge_date := discharge_date self;
     length_of_stay_days := los;
     follow_up_required := follow_up_required self;
     follow_up_timeframe := follow_up_timeframe self;
     risk_level := risk_level self;
     created_by := created_by self;
     created_at := created_at self; updated_at := updated_at self;
     texts := texts self |}.

Definition with_meta (self : DischargeSummary) (id : option nat)
    (created updated : option Z) : DischargeSummary :=
  {| pk := id; patient := patient self; hospital := hospital self;
     admission_date := admission_date self;
     discharge_date := discharge_date self;
     length_of_stay_days := length_of_stay_days self;
     follow_up_required := follow_up_required self;
     follow_up_timeframe := follow_up_timeframe self;
     risk_level := risk_level self;
     created_by := created_by self;
     created_at := created; updated_at := updated;
     texts := texts self |}.

(** The first statement of [DischargeSummary.save]:
    [if self.admission_date and self.discharge_date:
       self.length_of_stay_days = (self.discharge_date - self.admission_date).days].
    A [date] is always truthy, so the test is on the two being set. *)
Definition set_length_of_stay (self : DischargeSummary) : DischargeSummary :=
  match admission_date self, discharge_date self with
  | Some a, Some d => with_length_of_stay self (Some (sub_days d a))
  | _, _ => self
  end.

(** [super().save()]: stamp the [auto_now_add] / [auto_now] columns, then
    write the row (an update when the key exists, an insert otherwise).
    The table rejects a null column, and [PositiveIntegerField] puts the
    check [length_of_stay_days >= 0] on its column. *)
Definition Model_save (now : Z) (st : Store) (self : DischargeSummary)
  : DbError + (Store * DischargeSummary) :=
  let adding :=
    match pk self with
    | Some id => bool_decide (table st !! id = None)
    | None => true
    end in
  let id := default (next_id st) (pk self) in
  let self1 :=
    with_meta self (Some id)
      (if adding then Some now else created_at self) (Some now) in
  match to_row id self1 with
  | None => inl (IntegrityError "NOT NULL constraint failed")
  | Some row =>
      if 0 <=? row_length_of_stay_days row
      then inr ({| table := <[id := row]> (table st);
                   next_id := Nat.max (next_id st) (S id) |}, self1)
      else inl (IntegrityError
                  "CHECK constraint failed: length_of_stay_days")
  end.

(** [DischargeSummary.save] *)
Definition save (now : Z) (st : Store) (self : DischargeSummary)
  : DbError + (Store * DischargeSummary) :=
  Model_save now st (set_length_of_stay self).

(** [Meta.ordering] *)
Definition Meta_ordering : list string := ["-discharge_date"; "-created_at"].

(** *** serializers.py *)

(** Validated data of [DischargeSummaryCreateSerializer]: one entry per
    serializer field, [None] when the key is missing from the dict. *)
Record DischargeData := {
  data_patient : option nat;
  data_hospital : option nat;
  data_admission_date : option date;
  data_discharge_date : option date;
  data_follow_up_required : option bool;
  data_follow_up_timeframe : option string;
  data_risk_level : option string;
  data_texts : gmap string string }.

(** Truthiness of [data.get(key)] for a bool and a string. *)
Definition truthy_bool (v : option bool) : bool :=
  match v with Some b => b | None => false end.

Definition truthy_str (v : option string) : bool :=
  match v with
  | Some (String _ _) => true
  | Some EmptyString | None => false
  end.

(** The two errors [validate] raises, each a dict naming its field. *)
Definition discharge_date_error : ValidationError :=
  FieldError "discharge_date"
    "Discharge date cannot be before admission date.".

Definition follow_up_timeframe_error : ValidationError :=
  FieldError "follow_up_timeframe"
    "Follow-up timeframe is required when follow-up is required.".

(** [DischargeSummaryCreateSerializer.validate]. The first test,
    [data.get('discharge_date') and data.get('admission_date')], holds
    when both keys carry a date. *)
Definition validate (data : DischargeData) : ValidationError + DischargeData :=
  let before_admission :=
    match data_discharge_date data, data_admission_date data with
    | Some d, Some a => date_lt d a
    | _, _ => false
    end in
  if before_admission
  then inl discharge_date_error
  else if truthy_bool (data_follow_up_required data)
  then if negb (truthy_str (data_follow_up_timeframe data))
       then inl follow_up_timeframe_error
       else inr data
  else inr data.

(** Serializer fields without a model default or [blank=True]. *)
Definition required_texts : list string :=
  ["primary_diagnosis"; "treatment_summary"; "discharge_instructions";
   "attending_physician"].

Definition present {A} (v : option A) : bool :=
  match v with Some _ => true | None => false end.

Definition missing_required (data : DischargeData) : list string :=
  (if present (data_patient data) then [] else ["patient"])
  ++ (if present (data_hospital data) then [] else ["hospital"])
  ++ (if present (data_admission_date data) then [] else ["admission_date"])
  ++ (if present (data_discharge_date data) then [] else ["discharge_date"])
  ++ filter (fun k => data_texts data !! k = None) required_texts.

(** [serializer.is_valid()] on a payload whose entries are already of
    their field's type: of the field-level pass the required keys (not
    asked for when the update is partial), and then [validate]. The
    other field-level checks (the related patient and hospital exist,
    choices, lengths, blank texts) are not part of it: they can only
    turn down more payloads. *)
Definition run_validation (partial : bool) (data : DischargeData)
  : ValidationError + DischargeData :=
  match (if partial then [] else missing_required data) with
  | field :: _ => inl (FieldError field "This field is required.")
  | [] => validate data
  end.

(** Column defaults applied by the model constructor. *)
Definition text_defaults : gmap string string :=
  list_to_map
    [("discharge_condition", "improved"); ("secondary_diagnoses", "");
     ("icd10_primary", ""); ("icd10_secondary", "");
     ("procedures_performed", "");
     ("discharge_instructions_kinyarwanda", "");
     ("diet_instructions", ""); ("activity_restrictions", "");
     ("follow_up_with", ""); ("risk_factors", ""); ("warning_signs", "");
     ("warning_signs_kinyarwanda", ""); ("discharge_nurse", "");
     ("additional_notes", "")].

Definition or_else {A} (new old : option A) : option A :=
  match new with Some x => Some x | None => old end.

(** The model constructor applied to the validated data, to which
    [create] has added [created_by]. *)
Definition Model_init (user : nat) (validated_data : DischargeData)
  : DischargeSummary :=
  {| pk := None;
     patient := data_patient validated_data;
     hospital := data_hospital validated_data;
     admission_date := data_admission_date validated_data;
     discharge_date := data_discharge_date validated_data;
     length_of_stay_days := None;
     follow_up_required :=
       default true (data_follow_up_required validated_data);
     follow_up_timeframe :=
       default ""%string (data_follow_up_timeframe validated_data);
     risk_level := default "medium"%string (data_risk_level validated_data);
     created_by := Some user;
     created_at := None; updated_at := None;
     texts := data_texts validated_data ∪ text_defaults |}.

(** [DischargeSummaryCreateSerializer.create] *)
Definition create (now : Z) (user : nat) (st : Store)
    (validated_data : DischargeData) : DbError + (Store * DischargeSummary) :=
  save now st (Model_init user validated_data).

(** [for attr, value in validated_data.items(): setattr(instance, attr, value)] *)
Definition setattrs (instance : DischargeSummary)
    (validated_data : DischargeData) : DischargeSummary :=
  {| pk := pk instance;
     patient := or_else (data_patient validated_data) (patient instance);
     hospital := or_else (data_hospital validated_data) (hospital instance);
     admission_date :=
       or_else (data_admission_date validated_data) (admission_date instance);
     discharge_date :=
       or_else (data_discharge_date validated_data) (discharge_date instance);
     length_of_stay_days := length_of_stay_days instance;
     follow_up_required :=
       default (follow_up_required instance)
               (data_follow_up_required validated_data);
     follow_up_timeframe :=
       default (follow_up_timeframe instance)
               (data_follow_up_timeframe validated_data);
     risk_level :=
       default (risk_level instance) (data_risk_level validated_data);
     created_by := created_by instance;
     created_at := created_at instance; updated_at := updated_at instance;
     texts := data_texts validated_data ∪ texts instance |}.

(** The serializer's inherited [update]: set the attributes, then
    [instance.save()]. *)
Definition update (now : Z) (st : Store) (instance : DischargeSummary)
    (validated_data : DischargeData) : DbError + (Store * DischargeSummary) :=
  save now st (setattrs instance validated_data).

(** *** views.py *)

(** [DischargeSummaryViewSet.ordering_fields] and [.ordering] *)
Definition ordering_fields : list string := ["discharge_date"; "created_at"].
Definition ordering : list string := ["-discharge_date"].

(** [term[1:]] when the term starts with a dash, the term otherwise *)
Definition strip_dash (term : string) : string :=
  match term with
  | String "-"%char rest => rest
  | _ => term
  end.

(** [OrderingFilter.remove_invalid_fields]: a term is kept when, one
    leading dash apart, it names an ordering field. *)
Definition remove_invalid_fields (fields : list string) : list string :=
  filter (fun term => strip_dash term ∈ ordering_fields) fields.

(** [OrderingFilter.get_ordering]: the terms of the [ordering] query
    parameter that name an ordering field, or else the view's default. *)
Definition get_ordering (params : option (list string)) : list string :=
  match params with
  | Some fields =>
      match remove_invalid_fields fields with
      | [] => ordering
      | valid => valid
      end
  | None => ordering
  end.

(** [OrderingFilter.filter_queryset]: a non-empty ordering is applied
    with [queryset.order_by], which replaces the ordering the queryset
    had; otherwise the queryset is returned as it is. *)
Definition filter_queryset (params : option (list string))
    (queryset_ordering : list string) : list string :=
  match get_ordering params with
  | [] => queryset_ordering
  | terms => terms
  end.

(** The read actions of the viewset. [list] goes through the filter
    backends; the three extra actions read [self.queryset.filter(...)]. *)
Inductive Action :=
| list_action (matches : Row → bool) (ordering_param : option (list string))
| high_risk
| recent (cutoff_date : date)
| needs_follow_up.

Definition action_ordering (a : Action) : list string :=
  match a with
  | list_action _ params => filter_queryset params Meta_ordering
  | high_risk | recent _ | needs_follow_up => Meta_ordering
  end.

Definition action_filter (a : Action) (r : Row) : bool :=
  match a with
  | list_action matches _ => matches r
  | high_risk =>
      bool_decide (row_risk_level r ∈ ["high"; "critical"]%string)
  | recent cutoff_date => negb (date_lt (row_discharge_date r) cutoff_date)
  | needs_follow_up => row_follow_up_required r
  end.

(** How the store compares two rows on a column. *)
Definition date_compare (a b : date) : comparison :=
  if date_lt a b then Lt else if date_lt b a then Gt else Eq.

Definition field_compare (field : string) (x y : Row) : comparison :=
  if decide (field = "discharge_date"%string)
  then date_compare (row_discharge_date x) (row_discharge_date y)
  else if decide (field = "created_at"%string)
  then Z.compare (row_created_at x) (row_created_at y)
  else Eq.

(** One [order_by] term: a leading dash reverses the column's order. *)
Definition term_compare (term : string) (x y : Row) : comparison :=
  match term with
  | String "-"%char field => CompOpp (field_compare field x y)
  | _ => field_compare term x y
  end.

(** [ORDER BY] over several terms: a later term decides only among rows
    the earlier terms leave equal. *)
Fixpoint ordering_compare (terms : list string) (x y : Row) : comparison :=
  match terms with
  | [] => Eq
  | term :: rest =>
      match term_compare term x y with
      | Eq => ordering_compare rest x y
      | c => c
      end
  end.

Definition ordered_before (terms : list string) (x y : Row) : Prop :=
  ordering_compare terms x y ≠ Gt.

#[global] Instance ordered_before_dec terms : RelDecision (ordered_before terms).
Proof. intros x y. unfold ordered_before. solve_decision. Defined.

Definition rows (st : Store) : list Row := (map_to_list (table st)).*2.

(** What the store may answer to [SELECT ... WHERE ... ORDER BY terms]:
    the matching rows, in any order that respects the terms. The order
    of rows the terms leave equal is the store's choice. *)
Definition query_result (terms : list string) (matches : Row → bool)
    (st : Store) (result : list Row) : Prop :=
  result ≡ₚ filter (fun r => matches r = true) (rows st)
  ∧ StronglySorted (ordered_before terms) result.

(** One such answer, computed by a merge sort. *)
Definition order_by (terms : list string) (l : list Row) : list Row :=
  merge_sort (ordered_before terms) l.

Definition run_action (a : Action) (st : Store) : list Row :=
  order_by (action_ordering a)
           (filter (fun r => action_filter a r = true) (rows st)).

(** The order the listing is described to have: discharge date
    descending, and creation time descending among equal discharge dates. *)
Definition newest_first (x y : Row) : Prop :=
  date_lt (row_discharge_date y) (row_discharge_date x) = true
  ∨ (row_discharge_date x = row_discharge_date y
     ∧ row_created_at y <= row_created_at x).

(** Discharge date descending, nothing said about equal dates. *)
Definition discharge_date_descending (x y : Row) : Prop :=
  date_lt (row_discharge_date x) (row_discharge_date y) = false.

#[global] Instance newest_first_dec : RelDecision newest_first.
Proof. intros x y. unfold newest_first. solve_decision. Defined.

(** A three-way comparison that comes from a total preorder. *)
Definition preorder_compare (c : Row → Row → comparison) : Prop :=
  (∀ x y, c y x = CompOpp (c x y))
  ∧ (∀ x y z, c x y = Eq → c x z = c y z)
  ∧ (∀ x y z, c x y = Lt → c y z = Lt → c x z = Lt).

(** The write actions of the viewset, all served by
    [DischargeSummaryCreateSerializer]. *)
Inductive Request :=
| Create (data : DischargeData)
| Update (id : nat) (data : DischargeData)
| PartialUpdate (id : nat) (data : DischargeData)
| Destroy (id : nat).

Inductive Response :=
| Created (obj : DischargeSummary)
| Ok (obj : DischargeSummary)
| NoContent
| BadRequest (e : ValidationError)
| NotFound
| ServerError (e : DbError).

(** [self.get_object()] *)
Definition get_object (st : Store) (id : nat) : option DischargeSummary :=
  of_row <$> table st !! id.

Definition perform_update (now : Z) (st : Store) (partial : bool)
    (id : nat) (data : DischargeData) : Store * Response :=
  match get_object st id with
  | None => (st, NotFound)
  | Some instance =>
      match run_validation partial data with
      | inl e => (st, BadRequest e)
      | inr validated_data =>
          match update now st instance validated_data with
          | inl e => (st, ServerError e)
          | inr (st', obj) => (st', Ok obj)
          end
      end
  end.

(** One request to the discharge-summary endpoints: validation, then the
    serializer's [create] or [update], which ends in [save]. *)
Definition dispatch (now : Z) (user : nat) (st : Store) (req : Request)
  : Store * Response :=
  match req with
  | Create data =>
      match run_validation false data with
      | inl e => (st, BadRequest e)
      | inr validated_data =>
          match create now user st validated_data with
          | inl e => (st, ServerError e)
          | inr (st', obj) => (st', Created obj)
          end
      end
  | Update id data => perform_update now st false id data
  | PartialUpdate id data => perform_update now st true id data
  | Destroy id =>
      match get_object st id with
      | None => (st, NotFound)
      | Some _ =>
          ({| table := delete id (table st); next_id := next_id st |},
           NoContent)
      end
  end.

(** The stores reachable from the empty one through the endpoints. *)
Inductive reachable : Store → Prop :=
| reachable_empty : reachable empty_store
| reachable_step now user st req :
    reachable st → reachable (dispatch now user st req).1.

(** *** Sample records, as the test suite builds them *)

Definition sample_texts : gmap string string :=
  list_to_map
    [("primary_diagnosis", "Hypertension");
     ("treatment_summary", "Medication and lifestyle changes");
     ("discharge_instructions", "Take medication daily");
     ("attending_physician", "Dr. Smith")]%string.

Definition sample_data (admission discharge : option date)
    (required : option bool) (timeframe : option string) : DischargeData :=
  {| data_patient := Some 1%nat; data_hospital := Some 1%nat;
     data_admission_date := admission; data_discharge_date := discharge;
     data_follow_up_required := required;
     data_follow_up_timeframe := timeframe;
     data_risk_level := Some "medium"%string;
     data_texts := sample_texts |}.

(** A payload that names only some dates, as a PATCH may. *)
Definition dates_only (admission discharge : option date) : DischargeData :=
  {| data_patient := None; data_hospital := None;
     data_admission_date := admission; data_discharge_date := discharge;
     data_follow_up_required := None; data_follow_up_timeframe := None;
     data_risk_level := None; data_texts := ∅ |}.

Definition sample_instance (admission discharge : date) : DischargeSummary :=
  Model_init 7
    (sample_data (Some admission) (Some discharge)
                 (Some true) (Some "1 week"%string)).

Definition sample_row (id : nat) (discharge : date) (created : Z) : Row :=
  {| row_id := id; row_patient := 1; row_hospital := 1;
     row_admission_date := Date 2025 12 28; row_discharge_date := discharge;
     row_length_of_stay_days := sub_days discharge (Date 2025 12 28);
     row_follow_up_required := true; row_follow_up_timeframe := "1 week";
     row_risk_level := "medium"; row_created_by := 7;
     row_created_at := created; row_updated_at := created;
     row_texts := sample_texts |}.

(** Three summaries with the same discharge date, created one after the
    other through the create endpoint. *)
Definition same_day_payload : DischargeData :=
  sample_data (Some (Date 2026 1 1)) (Some (Date 2026 1 10))
              (Some true) (Some "1 week"%string).

Definition three_same_day : Store :=
  (dispatch 7 7
     (dispatch 6 7
        (dispatch 5 7 empty_store (Create same_day_payload)).1
        (Create same_day_payload)).1
     (Create same_day_payload)).1.

(** The store and the instance in the outcome of a [save] (the empty
    store and a sample instance when it failed). *)
Definition Store_of_save (r : DbError + (Store * DischargeSummary)) : Store :=
  match r with inr (st, _) => st | inl _ => empty_store end.

Definition instance_of_save (r : DbError + (Store * DischargeSummary))
  : DischargeSummary :=
  match r with
  | inr (_, self) => self
  | inl _ => sample_instance (Date 2026 1 1) (Date 2026 1 1)
  end.

(** *** Read-time properties and the remaining pieces of the endpoints *)

(** [DischargeSummary.is_high_risk]:
    [self.risk_level in ['high', 'critical']] *)
Definition is_high_risk (self : DischargeSummary) : bool :=
  bool_decide (risk_level self ∈ ["high"; "critical"]%string).

(** [DischargeSummary.days_since_discharge], with the clock as an
    argument. Subtracting an unset date raises: [None] here. *)
Definition days_since_discharge (today : date) (self : DischargeSummary)
  : option Z :=
  match discharge_date self with
  | Some d => Some (sub_days today d)
  | None => None
  end.

(** The key a write request is about: the one it names, or for a create
    the next key of the counter. *)
Definition target (st : Store) (req : Request) : nat :=
  match req with
  | Create _ => next_id st
  | Update id _ | PartialUpdate id _ | Destroy id => id
  end.

(** A payload with its two follow-up entries named. *)
Definition with_follow_up (data : DischargeData) (required : bool)
    (timeframe : string) : DischargeData :=
  {| data_patient := data_patient data;
     data_hospital := data_hospital data;
     data_admission_date := data_admission_date data;
     data_discharge_date := data_discharge_date data;
     data_follow_up_required := Some required;
     data_follow_up_timeframe := Some timeframe;
     data_risk_level := data_risk_level data;
     data_texts := data_texts data |}.

(** Whether a response reports an accepted write. *)
Definition accepted (resp : Response) : bool :=
  match resp with
  | Created _ | Ok _ | NoContent => true
  | BadRequest _ | NotFound | ServerError _ => false
  end.

End Enrollment.

(** ** Hospitals and the deletion rules between the tables *)

Module Hospitals.

(** A row of the [Hospital] table. *)
Record Hospital := {
  hospital_id : nat;
  name : string;
  code : string;
  hospital_type : string;
  province : string;
  district : string;
  sector : string;
  phone_number : string;
  email : string;
  emr_integration_type : string;
  emr_system_name : string;
  status : string }.

(** [HospitalViewSet.active]: [self.queryset.filter(status='active')] *)
Definition active (hospitals : list Hospital) : list Hospital :=
  filter (λ h, status h = "active"%string) hospitals.

(** [HospitalViewSet.by_province]: a missing or empty [province]
    parameter is answered with status 400, anything else with the active
    hospitals of that province. *)
Definition by_province (province_param : option string)
    (hospitals : list Hospital) : string + list Hospital :=
  match province_param with
  | Some (String c rest) =>
      inr (filter (λ h, province h = String c rest
                        ∧ status h = "active"%string) hospitals)
  | Some EmptyString | None => inl "Province parameter is required"%string
  end.

End Hospitals.

Module Deletion.

(** The tables that refer to one another. *)
Record World := {
  patient_tables : Patients.Store;
  summaries : Enrollment.Store;
  hospitals : list Hospitals.Hospital }.

(** [patient.delete()]: addresses, emergency contacts and discharge
    summaries point to their patient with [on_delete=CASCADE] and go
    with it. *)
Definition delete_patient (w : World) (pk : nat) : World :=
  {| patient_tables :=
       {| Patients.patients := delete pk (Patients.patients (patient_tables w));
          Patients.addresses :=
            filter (λ a, Patients.address_patient a ≠ pk)
                   (Patients.addresses (patient_tables w));
          Patients.emergency_contacts :=
            filter (λ c, Patients.contact_patient c ≠ pk)
                   (Patients.emergency_contacts (patient_tables w));
          Patients.next_address_id :=
            Patients.next_address_id (patient_tables w);
          Patients.next_contact_id :=
            Patients.next_contact_id (patient_tables w) |};
     summaries :=
       {| Enrollment.table :=
            filter (λ kv, Enrollment.row_patient kv.2 ≠ pk)
                   (Enrollment.table (summaries w));
          Enrollment.next_id := Enrollment.next_id (summaries w) |};
     hospitals := hospitals w |}.

Inductive DeleteError :=
| ProtectedError.

(** [hospital.delete()]: discharge summaries point to their hospital
    with [on_delete=PROTECT], so a hospital that some summary refers to
    cannot be deleted. *)
Definition delete_hospital (w : World) (id : nat) : DeleteError + World :=
  if bool_decide (map_Exists (λ _ r, Enrollment.row_hospital r = id)
                             (Enrollment.table (summaries w)))
  then inl ProtectedError
  else inr {| patient_tables := patient_tables w;
              summaries := summaries w;
              hospitals :=
                filter (λ h, Hospitals.hospital_id h ≠ id) (hospitals w) |}.

(** Every reference points to a stored row. *)
Definition references_ok (w : World) : Prop :=
  map_Forall
    (λ _ r,
       is_Some (Patients.patients (patient_tables w) !! Enrollment.row_patient r)
       ∧ ∃ h, h ∈ hospitals w
              ∧ Hospitals.hospital_id h = Enrollment.row_hospital r)
    (Enrollment.table (summaries w))
  ∧ Forall (λ a, is_Some (Patients.patients (patient_tables w)
                          !! Patients.address_patient a))
           (Patients.addresses (patient_tables w))
  ∧ Forall (λ c, is_Some (Patients.patients (patient_tables w)
                          !! Patients.contact_patient c))
           (Patients.emergency_contacts (patient_tables w)).

End Deletion.

(** ** Field validators: the regular expressions on identifiers and phones *)

Module Validators.

(** A Python [str] as its code points. *)
Definition of_ascii (s : string) : list N :=
  map N_of_ascii (list_ascii_of_string s).

(** The fragment of [re] the two patterns use: [^], [$], and a literal
    or [\d] repeated a fixed number of times. *)
Inductive atom :=
| Lit (c : N)
| Digit.

Inductive item :=
| AssertStart
| AssertEnd
| Repeat (a : atom) (n : nat).

Section Matcher.

(** Which code points [\d] matches: the decimal digits of the Unicode
    tables, taken as given. *)
Variable is_decimal : N → bool.

Definition atom_matches (a : atom) (c : N) : bool :=
  match a with
  | Lit l => N.eqb c l
  | Digit => is_decimal c
  end.

(** Consume exactly [n] characters matching [a]. *)
Fixpoint consume (a : atom) (n : nat) (s : list N) : option (list N) :=
  match n with
  | O => Some s
  | S n' =>
      match s with
      | c :: s' => if atom_matches a c then consume a n' s' else None
      | [] => None
      end
  end.

(** Match the items at the current position. [^] holds at position 0
    only; [$] holds at the end of the string and just before a newline
    that ends it. *)
Fixpoint match_here (items : list item) (at_start : bool) (s : list N) : bool :=
  match items with
  | [] => true
  | AssertStart :: rest => at_start && match_here rest at_start s
  | AssertEnd :: rest =>
      (bool_decide (s = []) || bool_decide (s = [10%N]))
      && match_here rest at_start s
  | Repeat a n :: rest =>
      match consume a n s with
      | Some s' => match_here rest (at_start && Nat.eqb n 0) s'
      | None => false
      end
  end.

(** [regex.search(value)]: a match starting at some position. *)
Fixpoint search_from (items : list item) (at_start : bool) (s : list N) : bool :=
  match_here items at_start s
  || match s with
     | [] => false
     | _ :: s' => search_from items false s'
     end.

Definition search (items : list item) (value : list N) : bool :=
  search_from items true value.

(** What a model [CharField] accepts when cleaned: an empty value passes
    only if the field is declared [blank=True], and skips the validators;
    any other value must pass the [RegexValidator] and be no longer than
    [max_length]. *)
Definition clean_char_field (blank : bool) (max_length : nat)
    (regex : list item) (value : list N) : bool :=
  match value with
  | [] => blank
  | _ => search regex value && Nat.leb (length value) max_length
  end.

(** [regex=r"^\d{16}$"] *)
Definition national_id_regex : list item :=
  [AssertStart; Repeat Digit 16; AssertEnd].

(** [regex=r"^\+250\d{9}$"] *)
Definition phone_regex : list item :=
  [AssertStart; Repeat (Lit 43) 1; Repeat (Lit 50) 1; Repeat (Lit 53) 1;
   Repeat (Lit 48) 1; Repeat Digit 9; AssertEnd].

(** [Patient.national_id]: [max_length=16] *)
Definition national_id_clean : list N → bool :=
  clean_char_field false 16 national_id_regex.

(** [Patient.phone_number] and [EmergencyContact.phone_number]:
    [max_length=13] *)
Definition phone_number_clean : list N → bool :=
  clean_char_field false 13 phone_regex.

(** [Patient.alt_phone_number]: [max_length=13, blank=True] *)
Definition alt_phone_number_clean : list N → bool :=
  clean_char_field true 13 phone_regex.

(** [Hospital.phone_number]: [max_length=15] *)
Definition hospital_phone_number_clean : list N → bool :=
  clean_char_field false 15 phone_regex.

End Matcher.

(** The ASCII digits, on which every table of decimal digits agrees. *)
Definition ascii_digit (c : N) : bool := (48 <=? c)%N && (c <=? 57)%N.

End Validators.

(** * Properties *)

(** ** Calendar arithmetic *)

Section DateFacts.

Lemma tuple_lt_pair (a1 a2 b1 b2 : Z) :
  tuple_lt [a1; a2] [b1; b2] = true ↔ a1 < b1 ∨ (a1 = b1 ∧ a2 < b2).
Proof.
  cbn. destruct (Z.eqb_spec a1 b1) as [->|Hne].
  - destruct (Z.eqb_spec a2 b2) as [->|Hne2]; [split; [discriminate | lia] |].
    rewrite Z.ltb_lt. lia.
  - rewrite Z.ltb_lt. lia.
Qed.

Lemma date_lt_spec (a b : date) :
  date_lt a b = true ↔
  year a < year b
  ∨ (year a = year b
     ∧ (month a < month b ∨ (month a = month b ∧ day a < day b))).
Proof.
  unfold date_lt. cbn [tuple_lt].
  destruct (Z.eqb_spec (year a) (year b)) as [Hy|Hy];
    [destruct (Z.eqb_spec (month a) (month b)) as [Hm|Hm];
     [destruct (Z.eqb_spec (day a) (day b)) as [Hd|Hd] |] |];
    rewrite ?Z.ltb_lt; lia.
Qed.

Lemma date_lt_irrefl (a : date) : date_lt a a = false.
Proof.
  destruct (date_lt a a) eqn:E; [| done].
  apply date_lt_spec in E. lia.
Qed.

Lemma days_before_year_succ (y : Z) :
  days_before_year (y + 1) = days_before_year y + days_in_year y.
Proof.
  unfold days_before_year, days_in_year, is_leap.
  replace (y + 1 - 1) with y by lia.
  destruct (Z.eqb_spec (y mod 4) 0), (Z.eqb_spec (y mod 100) 0),
    (Z.eqb_spec (y mod 400) 0); cbn;
    Z.div_mod_to_equations; lia.
Qed.

Lemma days_before_year_mono (y y' : Z) :
  y <= y' → days_before_year y <= days_before_year y'.
Proof.
  unfold days_before_year. intros H.
  Z.div_mod_to_equations. lia.
Qed.

Lemma month_cases (m : Z) :
  1 <= m <= 12 →
  m = 1 ∨ m = 2 ∨ m = 3 ∨ m = 4 ∨ m = 5 ∨ m = 6
  ∨ m = 7 ∨ m = 8 ∨ m = 9 ∨ m = 10 ∨ m = 11 ∨ m = 12.
Proof. lia. Qed.

Lemma valid_date_bounds (d : date) :
  valid_date d →
  1 <= year d <= 9999 ∧ 1 <= month d <= 12
  ∧ 1 <= day d <= days_in_month (year d) (month d).
Proof.
  unfold valid_date, valid_dateb.
  rewrite !andb_true_iff, !Z.leb_le. lia.
Qed.

Ltac each_month m H :=
  destruct (month_cases m H) as
    [->|[->|[->|[->|[->|[->|[->|[->|[->|[->|[->| ->]]]]]]]]]]].

(** A month ends before any later month starts. *)
Lemma days_before_month_step (y m m' : Z) :
  1 <= m <= 12 → 1 <= m' <= 12 → m < m' →
  days_before_month y m + days_in_month y m <= days_before_month y m'.
Proof.
  intros Hm Hm' Hlt.
  unfold days_before_month, days_in_month.
  destruct (is_leap y);
    each_month m Hm; each_month m' Hm'; try lia; by vm_compute.
Qed.

(** The last month ends with the year. *)
Lemma days_before_month_year (y m : Z) :
  1 <= m <= 12 →
  0 <= days_before_month y m
  ∧ days_before_month y m + days_in_month y m <= days_in_year y.
Proof.
  intros Hm.
  unfold days_before_month, days_in_month, days_in_year.
  destruct (is_leap y); each_month m Hm; split; by vm_compute.
Qed.

(** [toordinal] is strictly monotone for the order of [date.__lt__]. *)
Lemma toordinal_lt (a b : date) :
  valid_date a → valid_date b →
  date_lt a b = true → toordinal a < toordinal b.
Proof.
  intros Ha Hb Hlt.
  apply valid_date_bounds in Ha as (_ & Hma & Hda).
  apply valid_date_bounds in Hb as (_ & Hmb & Hdb).
  apply date_lt_spec in Hlt.
  unfold toordinal, ymd2ord.
  destruct Hlt as [Hy | [Hy [Hm | [Hm Hd]]]].
  - pose proof (days_before_month_year (year a) (month a) Hma).
    pose proof (days_before_month_year (year b) (month b) Hmb).
    pose proof (days_before_year_succ (year a)).
    pose proof (days_before_year_mono (year a + 1) (year b)).
    lia.
  - rewrite Hy in *.
    pose proof (days_before_month_step (year b) (month a) (month b)).
    lia.
  - rewrite Hy, Hm in *. lia.
Qed.

Lemma date_lt_trichotomy (a b : date) :
  date_lt a b = true ∨ a = b ∨ date_lt b a = true.
Proof.
  rewrite !date_lt_spec. destruct a as [ya ma da], b as [yb mb db]; cbn.
  destruct (decide (ya = yb)) as [->|]; [| lia].
  destruct (decide (ma = mb)) as [->|]; [| lia].
  destruct (decide (da = db)) as [->|]; [| lia].
  auto.
Qed.

Lemma toordinal_lt_iff (a b : date) :
  valid_date a → valid_date b →
  (date_lt a b = true ↔ toordinal a < toordinal b).
Proof.
  intros Ha Hb. split; [by apply toordinal_lt |].
  intros Hlt. destruct (date_lt_trichotomy a b) as [H | [-> | H]]; [done | lia |].
  apply toordinal_lt in H; [lia | done | done].
Qed.

Lemma sub_days_nonneg (a d : date) :
  valid_date a → valid_date d →
  (date_lt d a = false ↔ 0 <= sub_days d a).
Proof.
  intros Ha Hd. unfold sub_days.
  pose proof (toordinal_lt_iff d a Hd Ha) as Hiff.
  destruct (date_lt d a); [| split; [intros _ | done]].
  - split; [done |]. intros ?. assert (toordinal d < toordinal a) by by apply Hiff. lia.
  - destruct (Z_lt_le_dec (toordinal d) (toordinal a)) as [Hl | Hl]; [| lia].
    apply Hiff in Hl. done.
Qed.

End DateFacts.

(** ** Patients: age and address coordinates *)

Section PatientFacts.

Import Patients.

Lemma age_unfold (date_of_birth today : date) :
  age date_of_birth today =
  year today - year date_of_birth
  - (if decide (month today < month date_of_birth
                ∨ (month today = month date_of_birth
                   ∧ day today < day date_of_birth))
     then 1 else 0).
Proof.
  unfold age.
  pose proof (tuple_lt_pair (month today) (day today)
                (month date_of_birth) (day date_of_birth)) as Hlt.
  destruct (tuple_lt _ _); case_decide; cbn; lia.
Qed.

Lemma age_same_day (today : date) : age today today = 0.
Proof. rewrite age_unfold. case_decide; lia. Qed.

Lemma age_not_yet_born (date_of_birth today : date) :
  date_lt date_of_birth today = false → age date_of_birth today <= 0.
Proof.
  intros Hnlt. rewrite age_unfold.
  destruct (date_lt_trichotomy date_of_birth today) as [H | [-> | H]].
  - congruence.
  - case_decide; lia.
  - apply date_lt_spec in H. case_decide; lia.
Qed.

(** C2. [Patient.age] is [today.year - birth.year], less one exactly when
    [(today.month, today.day)] comes lexicographically before
    [(birth.month, birth.day)]. It is 0 when the birth date is today, and
    for a birth date that is today or later it is zero or negative:
    nothing clamps it (a birth date on 2030-01-01 seen from 2026-06-01
    gives -4). A birth date 120 years back gives 119 the day before the
    birthday and 120 on it. *)
Theorem age_lexicographic (date_of_birth today : date) :
  age date_of_birth today =
    year today - year date_of_birth
    - (if decide (month today < month date_of_birth
                  ∨ (month today = month date_of_birth
                     ∧ day today < day date_of_birth))
       then 1 else 0)
  ∧ age today today = 0
  ∧ (date_lt date_of_birth today = true ∨ age date_of_birth today <= 0)
  ∧ age (Date 2030 1 1) (Date 2026 6 1) = -4
  ∧ age (Date 2026 9 1) (Date 2026 6 1) = -1
  ∧ age (Date 1906 6 15) (Date 2026 6 14) = 119
  ∧ age (Date 1906 6 15) (Date 2026 6 15) = 120.
Proof.
  split; [apply age_unfold |].
  split; [apply age_same_day |].
  split; [| by vm_compute].
  destruct (date_lt date_of_birth today) eqn:E; [by left | right].
  by apply age_not_yet_born.
Qed.

Lemma dict_get_none (data : gmap string value) (key : string) :
  is_none (dict_get data key) = false ↔
  ∃ v, data !! key = Some v ∧ v ≠ VNone.
Proof.
  unfold dict_get. destruct (data !! key) as [v|]; cbn.
  - destruct v; cbn; split; try done; eauto; try (intros (? & [= <-] & ?); done).
  - split; [done | intros (? & ? & ?); done].
Qed.

(** C6. [AddressSerializer.validate] fails exactly when one of latitude
    and longitude is given (present and not null) and the other is not;
    with both given or both left out it returns the data as it came. *)
Theorem address_coordinates_together (data : gmap string value) :
  let given key := ∃ v, data !! key = Some v ∧ v ≠ VNone in
  ((∃ e, AddressSerializer_validate data = inl e)
   ↔ (given "latitude"%string ∧ ¬ given "longitude"%string)
     ∨ (¬ given "latitude"%string ∧ given "longitude"%string))
  ∧ ((given "latitude"%string ↔ given "longitude"%string)
     ↔ AddressSerializer_validate data = inr data).
Proof.
  intros given. unfold AddressSerializer_validate.
  pose proof (dict_get_none data "latitude") as Hlat.
  pose proof (dict_get_none data "longitude") as Hlon.
  fold (given "latitude"%string) in Hlat.
  fold (given "longitude"%string) in Hlon.
  destruct (is_none (dict_get data "latitude")),
    (is_none (dict_get data "longitude")); cbn.
  - assert (¬ given "latitude"%string) by (rewrite <- Hlat; done).
    assert (¬ given "longitude"%string) by (rewrite <- Hlon; done).
    split; [split; [intros [? ?]; done | tauto] | tauto].
  - assert (¬ given "latitude"%string) by (rewrite <- Hlat; done).
    assert (given "longitude"%string) by (by apply Hlon).
    split; [split; [tauto | eauto] |].
    split; [tauto | done].
  - assert (given "latitude"%string) by (by apply Hlat).
    assert (¬ given "longitude"%string) by (rewrite <- Hlon; done).
    split; [split; [tauto | eauto] |].
    split; [tauto | done].
  - assert (given "latitude"%string) by (by apply Hlat).
    assert (given "longitude"%string) by (by apply Hlon).
    split; [split; [intros [? ?]; done | tauto] | tauto].
Qed.

End PatientFacts.

(** ** Discharge summaries: validation *)

Section ValidationFacts.

Import Enrollment.

Lemma truthy_str_false (v : option string) :
  truthy_str v = false ↔ v = None ∨ v = Some ""%string.
Proof.
  destruct v as [[|c s]|]; cbn; split; try done; auto;
    intros [H | H]; done.
Qed.

Lemma truthy_bool_true (v : option bool) :
  truthy_bool v = true ↔ v = Some true.
Proof. destruct v as [[|]|]; cbn; split; done. Qed.

(** The outcome of [validate], by the two tests it makes in turn. *)
Lemma validate_cases (data : DischargeData) :
  let before :=
    ∃ a d, data_admission_date data = Some a
           ∧ data_discharge_date data = Some d ∧ date_lt d a = true in
  let missing :=
    data_follow_up_required data = Some true
    ∧ (data_follow_up_timeframe data = None
       ∨ data_follow_up_timeframe data = Some ""%string) in
  (before ∧ validate data = inl discharge_date_error)
  ∨ (¬ before ∧ missing ∧ validate data = inl follow_up_timeframe_error)
  ∨ (¬ before ∧ ¬ missing ∧ validate data = inr data).
Proof.
  intros before missing. unfold validate.
  assert (Hb : (match data_discharge_date data, data_admission_date data with
                | Some d, Some a => date_lt d a
                | _, _ => false
                end) = true ↔ before).
  { unfold before.
    destruct (data_discharge_date data) as [d|], (data_admission_date data) as [a|];
      split; try done; try (intros (? & ? & ? & ? & ?); done).
    - intros H. by exists a, d.
    - intros (a' & d' & [= <-] & [= <-] & H). done. }
  assert (Hm : truthy_bool (data_follow_up_required data)
               && negb (truthy_str (data_follow_up_timeframe data)) = true
               ↔ missing).
  { unfold missing.
    rewrite andb_true_iff, negb_true_iff, truthy_bool_true, truthy_str_false.
    done. }
  destruct (match data_discharge_date data, data_admission_date data with
            | Some d, Some a => date_lt d a
            | _, _ => false
            end).
  { left. split; [by apply Hb | done]. }
  assert (¬ before) by (rewrite <- Hb; done).
  right.
  destruct (truthy_bool (data_follow_up_required data)),
    (truthy_str (data_follow_up_timeframe data)); cbn in *.
  - right. split; [done |]. split; [rewrite <- Hm; done | done].
  - left. split; [done |]. split; [by apply Hm | done].
  - right. split; [done |]. split; [rewrite <- Hm; done | done].
  - right. split; [done |]. split; [rewrite <- Hm; done | done].
Qed.

Lemma validate_date_error_iff (data : DischargeData) (a d : date) :
  data_admission_date data = Some a →
  data_discharge_date data = Some d →
  (validate data = inl discharge_date_error ↔ date_lt d a = true).
Proof.
  intros Ha Hd. unfold validate. rewrite Ha, Hd.
  destruct (date_lt d a); [done |].
  split; [| done].
  destruct (truthy_bool _); [destruct (negb _) |]; done.
Qed.

(** C3. For a payload that carries both dates, [validate] raises the
    [discharge_date] error exactly when the discharge date is before the
    admission date. When the payload's follow-up entries keep the other
    rule of [validate] (follow-up is not required, or a timeframe is
    given), validation fails exactly when the discharge date is before
    the admission date, and then with that error. Equal dates pass, and
    the length of stay [save] derives for them is 0. *)
Theorem discharge_not_before_admission
    (data : DischargeData) (a d : date) (user : nat) :
  data_admission_date data = Some a →
  data_discharge_date data = Some d →
  (validate data = inl discharge_date_error ↔ date_lt d a = true)
  ∧ (¬ (data_follow_up_required data = Some true
        ∧ (data_follow_up_timeframe data = None
           ∨ data_follow_up_timeframe data = Some ""%string)) →
     ((∃ e, validate data = inl e) ↔ date_lt d a = true)
     ∧ (∀ e, validate data = inl e → e = discharge_date_error)
     ∧ (d = a →
        validate data = inr data
        ∧ length_of_stay_days (set_length_of_stay (Model_init user data))
          = Some 0)).
Proof.
  intros Ha Hd.
  assert (Hbefore :
    (∃ a' d', data_admission_date data = Some a'
              ∧ data_discharge_date data = Some d' ∧ date_lt d' a' = true)
    ↔ date_lt d a = true).
  { split; [| intros H; by exists a, d].
    intros (a' & d' & Ha' & Hd' & H). congruence. }
  split; [by apply validate_date_error_iff |].
  intros Hkept.
  destruct (validate_cases data)
    as [[Hb Hv] | [(Hb & Hm & Hv) | (Hb & Hm & Hv)]]; [| done |].
  - apply Hbefore in Hb. rewrite Hv. split; [| split].
    + split; [done | by eexists].
    + by intros e [= <-].
    + intros ->. by rewrite date_lt_irrefl in Hb.
  - rewrite Hbefore in Hb. rewrite Hv. split; [| split].
    + split; [by intros [e ?] | done].
    + by intros e.
    + intros ->. split; [done |].
      unfold set_length_of_stay. cbn. rewrite Ha, Hd. cbn.
      f_equal. unfold sub_days. lia.
Qed.

Lemma discharge_not_before_admission_witness :
  (∃ e, validate (sample_data (Some (Date 2026 1 10)) (Some (Date 2026 1 5))
                              (Some true) (Some "1 week"%string)) = inl e)
  ∧ validate (sample_data (Some (Date 2026 1 5)) (Some (Date 2026 1 5))
                          (Some true) (Some "1 week"%string))
    = inr (sample_data (Some (Date 2026 1 5)) (Some (Date 2026 1 5))
                       (Some true) (Some "1 week"%string)).
Proof.
  split.
  - destruct (discharge_not_before_admission
                (sample_data (Some (Date 2026 1 10)) (Some (Date 2026 1 5))
                             (Some true) (Some "1 week"%string))
                (Date 2026 1 10) (Date 2026 1 5) 7 eq_refl eq_refl)
      as [_ H].
    destruct H as ([_ H] & _); [by intros [_ [? | ?]] |].
    apply H. reflexivity.
  - destruct (discharge_not_before_admission
                (sample_data (Some (Date 2026 1 5)) (Some (Date 2026 1 5))
                             (Some true) (Some "1 week"%string))
                (Date 2026 1 5) (Date 2026 1 5) 7 eq_refl eq_refl)
      as [_ H].
    destruct H as (_ & _ & H); [by intros [_ [? | ?]] |].
    by destruct (H eq_refl).
Defined.

(** C4. For a payload whose dates do not break the other rule of
    [validate] (a date is missing, or the discharge date is not before
    the admission date), validation fails exactly when follow-up is
    required and the timeframe is empty or missing, and then with the
    [follow_up_timeframe] error; otherwise the data is returned as it
    is. [validate] never raises that error for another payload.
    (true, empty) is rejected, (true, 1 week) and (false, empty) are
    accepted. *)
Theorem follow_up_timeframe_required (data : DischargeData) :
  let before :=
    ∃ a d, data_admission_date data = Some a
           ∧ data_discharge_date data = Some d ∧ date_lt d a = true in
  let missing :=
    data_follow_up_required data = Some true
    ∧ (data_follow_up_timeframe data = None
       ∨ data_follow_up_timeframe data = Some ""%string) in
  (¬ before →
   ((∃ e, validate data = inl e) ↔ missing)
   ∧ (∀ e, validate data = inl e → e = follow_up_timeframe_error)
   ∧ (¬ missing → validate data = inr data))
  ∧ (validate data = inl follow_up_timeframe_error → missing)
  ∧ (missing → ∃ e, validate data = inl e)
  ∧ validate (sample_data (Some (Date 2026 1 1)) (Some (Date 2026 1 10))
                          (Some true) (Some ""%string))
    = inl follow_up_timeframe_error
  ∧ validate (sample_data (Some (Date 2026 1 1)) (Some (Date 2026 1 10))
                          (Some true) None)
    = inl follow_up_timeframe_error
  ∧ validate (sample_data (Some (Date 2026 1 1)) (Some (Date 2026 1 10))
                          (Some true) (Some "1 week"%string))
    = inr (sample_data (Some (Date 2026 1 1)) (Some (Date 2026 1 10))
                       (Some true) (Some "1 week"%string))
  ∧ validate (sample_data (Some (Date 2026 1 1)) (Some (Date 2026 1 10))
                          (Some false) (Some ""%string))
    = inr (sample_data (Some (Date 2026 1 1)) (Some (Date 2026 1 10))
                       (Some false) (Some ""%string)).
Proof.
  intros before missing.
  split; [| split; [| split; [| by vm_compute]]].
  - intros Hnb.
    destruct (validate_cases data)
      as [[Hb Hv] | [(Hb & Hm & Hv) | (Hb & Hm & Hv)]];
      [done | |]; rewrite Hv.
    + split; [split; [done | by eexists] |].
      split; [by intros e [= <-] | done].
    + split; [split; [by intros [e ?] | done] |].
      split; [by intros e | done].
  - destruct (validate_cases data)
      as [[Hb Hv] | [(Hb & Hm & Hv) | (Hb & Hm & Hv)]];
      rewrite Hv; done.
  - intros Hm.
    destruct (validate_cases data)
      as [[Hb Hv] | [(Hb & Hm' & Hv) | (Hb & Hm' & Hv)]];
      rewrite Hv; [by eexists | by eexists | done].
Qed.

(** C5. With the discharge date before the admission date, the
    statement of [save] that computes the length of stay stores the
    exact difference of the two day numbers, a negative integer: nothing
    in it rejects or clamps. The rejection is made by [validate], which
    refuses every payload carrying these two dates. *)
Theorem length_of_stay_negative_when_reversed
    (self : DischargeSummary) (a d : date) :
  admission_date self = Some a →
  discharge_date self = Some d →
  valid_date a → valid_date d →
  date_lt d a = true →
  length_of_stay_days (set_length_of_stay self)
    = Some (toordinal d - toordinal a)
  ∧ toordinal d - toordinal a < 0
  ∧ ∀ data, data_admission_date data = Some a →
            data_discharge_date data = Some d →
            validate data = inl discharge_date_error.
Proof.
  intros Ha Hd Hva Hvd Hlt.
  split; [| split].
  - unfold set_length_of_stay. rewrite Ha, Hd. reflexivity.
  - pose proof (toordinal_lt d a Hvd Hva Hlt). lia.
  - intros data Hda Hdd.
    by apply (validate_date_error_iff data a d Hda Hdd).
Qed.

Lemma length_of_stay_negative_when_reversed_witness :
  length_of_stay_days
    (set_length_of_stay (sample_instance (Date 2026 1 10) (Date 2026 1 5)))
  = Some (-5).
Proof.
  destruct (length_of_stay_negative_when_reversed
              (sample_instance (Date 2026 1 10) (Date 2026 1 5))
              (Date 2026 1 10) (Date 2026 1 5)
              eq_refl eq_refl eq_refl eq_refl eq_refl) as [H _].
  exact H.
Defined.

End ValidationFacts.

(** ** Discharge summaries: the derived length of stay *)

Section SaveFacts.

Import Enrollment.

Lemma to_row_Some (id : nat) (self : DischargeSummary) (row : Row) :
  to_row id self = Some row →
  row_id row = id
  ∧ patient self = Some (row_patient row)
  ∧ hospital self = Some (row_hospital row)
  ∧ admission_date self = Some (row_admission_date row)
  ∧ discharge_date self = Some (row_discharge_date row)
  ∧ length_of_stay_days self = Some (row_length_of_stay_days row)
  ∧ created_by self = Some (row_created_by row)
  ∧ created_at self = Some (row_created_at row)
  ∧ updated_at self = Some (row_updated_at row).
Proof.
  unfold to_row.
  destruct (patient self), (hospital self), (admission_date self),
    (discharge_date self), (length_of_stay_days self), (created_by self),
    (created_at self), (updated_at self); try discriminate.
  intros [= <-]. cbn. repeat split.
Qed.

Lemma to_row_None (id : nat) (self : DischargeSummary) :
  to_row id self = None →
  patient self = None ∨ hospital self = None ∨ admission_date self = None
  ∨ discharge_date self = None ∨ length_of_stay_days self = None
  ∨ created_by self = None ∨ created_at self = None
  ∨ updated_at self = None.
Proof.
  unfold to_row.
  destruct (patient self), (hospital self), (admission_date self),
    (discharge_date self), (length_of_stay_days self), (created_by self),
    (created_at self), (updated_at self); try discriminate; tauto.
Qed.

(** What a successful [super().save()] wrote. *)
Lemma Model_save_inr (now : Z) (st st' : Store) (self self' : DischargeSummary) :
  Model_save now st self = inr (st', self') →
  ∃ id row,
    id = default (next_id st) (pk self)
    ∧ st' = {| table := <[id := row]> (table st);
               next_id := Nat.max (next_id st) (S id) |}
    ∧ to_row id self' = Some row
    ∧ 0 <= row_length_of_stay_days row
    ∧ pk self' = Some id
    ∧ admission_date self' = admission_date self
    ∧ discharge_date self' = discharge_date self
    ∧ length_of_stay_days self' = length_of_stay_days self.
Proof.
  unfold Model_save.
  set (id := default (next_id st) (pk self)).
  set (self1 := with_meta self (Some id) _ (Some now)).
  destruct (to_row id self1) as [row|] eqn:Hrow; [| discriminate].
  destruct (Z.leb_spec 0 (row_length_of_stay_days row)); [| discriminate].
  intros [= <- <-]. exists id, row. repeat split; done.
Qed.

(** A failing [super().save()] met a null column or the sign check. *)
Lemma Model_save_inl (now : Z) (st : Store) (self : DischargeSummary) (e : DbError) :
  Model_save now st self = inl e →
  (∃ los, length_of_stay_days self = Some los ∧ los < 0)
  ∨ patient self = None ∨ hospital self = None ∨ admission_date self = None
  ∨ discharge_date self = None ∨ length_of_stay_days self = None
  ∨ created_by self = None ∨ created_at self = None.
Proof.
  unfold Model_save.
  set (id := default (next_id st) (pk self)).
  set (self1 := with_meta self (Some id) _ (Some now)).
  destruct (to_row id self1) as [row|] eqn:Hrow.
  - destruct (Z.leb_spec 0 (row_length_of_stay_days row)); [discriminate |].
    intros _. left. exists (row_length_of_stay_days row).
    apply to_row_Some in Hrow as (_ & _ & _ & _ & _ & Hlos & _). done.
  - intros _. right.
    apply to_row_None in Hrow. subst self1. cbn in Hrow.
    destruct Hrow as [H|[H|[H|[H|[H|[H|[H|H]]]]]]]; try tauto;
      [| discriminate].
    destruct (match pk self with
              | Some id0 => bool_decide (table st !! id0 = None)
              | None => true
              end) in H; [discriminate | tauto].
Qed.

Lemma set_length_of_stay_dates (self : DischargeSummary) :
  admission_date (set_length_of_stay self) = admission_date self
  ∧ discharge_date (set_length_of_stay self) = discharge_date self
  ∧ pk (set_length_of_stay self) = pk self
  ∧ patient (set_length_of_stay self) = patient self
  ∧ hospital (set_length_of_stay self) = hospital self
  ∧ created_by (set_length_of_stay self) = created_by self
  ∧ created_at (set_length_of_stay self) = created_at self.
Proof.
  unfold set_length_of_stay.
  destruct (admission_date self) eqn:Ha, (discharge_date self) eqn:Hd;
    cbn; rewrite ?Ha, ?Hd; done.
Qed.

Lemma set_length_of_stay_both (self : DischargeSummary) (a d : date) :
  admission_date self = Some a → discharge_date self = Some d →
  length_of_stay_days (set_length_of_stay self) = Some (sub_days d a).
Proof.
  intros Ha Hd. unfold set_length_of_stay. by rewrite Ha, Hd.
Qed.

Lemma set_length_of_stay_idem (self : DischargeSummary) :
  set_length_of_stay (set_length_of_stay self) = set_length_of_stay self.
Proof.
  unfold set_length_of_stay.
  destruct (admission_date self) as [a|] eqn:Ha,
    (discharge_date self) as [d|] eqn:Hd; cbn; rewrite ?Ha, ?Hd; done.
Qed.

(** What a successful [save] wrote: a row whose length of stay is the
    difference of its own two dates, and not negative. *)
Lemma save_inr (now : Z) (st st' : Store) (self self' : DischargeSummary) :
  save now st self = inr (st', self') →
  ∃ id row,
    id = default (next_id st) (pk self)
    ∧ st' = {| table := <[id := row]> (table st);
               next_id := Nat.max (next_id st) (S id) |}
    ∧ to_row id self' = Some row
    ∧ pk self' = Some id
    ∧ admission_date self = Some (row_admission_date row)
    ∧ discharge_date self = Some (row_discharge_date row)
    ∧ row_length_of_stay_days row
      = sub_days (row_discharge_date row) (row_admission_date row)
    ∧ 0 <= row_length_of_stay_days row.
Proof.
  unfold save. intros Hsave.
  apply Model_save_inr in Hsave
    as (id & row & Hid & -> & Hrow & Hpos & Hpk & Ha & Hd & Hlos).
  destruct (set_length_of_stay_dates self) as (Ha' & Hd' & Hpk' & _).
  rewrite Hpk' in Hid. rewrite Ha' in Ha. rewrite Hd' in Hd.
  exists id, row.
  pose proof (to_row_Some _ _ _ Hrow) as (_ & _ & _ & Hra & Hrd & Hrl & _).
  rewrite Ha in Hra. rewrite Hd in Hrd.
  rewrite Hlos, (set_length_of_stay_both self _ _ Hra Hrd) in Hrl.
  repeat split; try done. congruence.
Qed.

(** The two outcomes of [save] on an instance with both dates set. *)
Lemma save_outcome (now : Z) (st : Store) (self : DischargeSummary) (a d : date) :
  admission_date self = Some a →
  discharge_date self = Some d →
  match save now st self with
  | inr (st', self') =>
      ∃ id row,
        pk self' = Some id
        ∧ table st' !! id = Some row
        ∧ row_admission_date row = a
        ∧ row_discharge_date row = d
        ∧ row_length_of_stay_days row = sub_days d a
        ∧ length_of_stay_days self' = Some (sub_days d a)
  | inl _ =>
      sub_days d a < 0
      ∨ patient self = None ∨ hospital self = None
      ∨ created_by self = None ∨ created_at self = None
  end.
Proof.
  intros Ha Hd.
  destruct (save now st self) as [e | [st' self']] eqn:Hsave.
  - unfold save in Hsave. apply Model_save_inl in Hsave.
    destruct (set_length_of_stay_dates self)
      as (Ha' & Hd' & _ & Hp & Hh & Hu & Hc).
    rewrite Ha', Hd', Hp, Hh, Hu, Hc,
      (set_length_of_stay_both self a d Ha Hd) in Hsave.
    rewrite Ha, Hd in Hsave.
    destruct Hsave as [(los & [= <-] & Hneg) | H]; [by left | right].
    destruct H as [H|[H|[H|[H|[H|[H|H]]]]]]; auto; discriminate.
  - apply save_inr in Hsave
      as (id & row & _ & -> & Hrow & Hpk & Hra & Hrd & Hlos & _).
    rewrite Ha in Hra. rewrite Hd in Hrd.
    injection Hra as ->. injection Hrd as ->.
    exists id, row. cbn. rewrite lookup_insert_eq.
    apply to_row_Some in Hrow as (_ & _ & _ & _ & _ & Hl & _).
    repeat split; try done. by rewrite Hl, Hlos.
Qed.

(** C1. [save] on an instance with both dates set either writes a row
    whose [length_of_stay_days] is the discharge date minus the admission
    date in whole days, whatever length of stay the instance carried
    before, or writes nothing (then the difference is negative or one of
    the other mandatory columns is unset). The same holds when a stored
    record is updated: the row is rewritten with the difference of the
    dates it now has. Admission 2026-01-01 with discharge 2026-01-10
    gives 9, and equal dates give 0. *)
Theorem save_length_of_stay
    (now : Z) (st : Store) (self : DischargeSummary) (a d : date)
    (stored : Row) (changes : DischargeData) :
  admission_date self = Some a →
  discharge_date self = Some d →
  match save now st self with
  | inr (st', self') =>
      ∃ id row,
        pk self' = Some id
        ∧ table st' !! id = Some row
        ∧ row_admission_date row = a
        ∧ row_discharge_date row = d
        ∧ row_length_of_stay_days row = sub_days d a
        ∧ length_of_stay_days self' = Some (sub_days d a)
  | inl _ =>
      sub_days d a < 0
      ∨ patient self = None ∨ hospital self = None
      ∨ created_by self = None ∨ created_at self = None
  end
  ∧ (let a' := default (row_admission_date stored)
                       (data_admission_date changes) in
     let d' := default (row_discharge_date stored)
                       (data_discharge_date changes) in
     match update now st (of_row stored) changes with
     | inr (st', _) =>
         ∃ row,
           table st' !! row_id stored = Some row
           ∧ row_admission_date row = a'
           ∧ row_discharge_date row = d'
           ∧ row_length_of_stay_days row = sub_days d' a'
     | inl _ => sub_days d' a' < 0
     end)
  ∧ sub_days (Date 2026 1 10) (Date 2026 1 1) = 9
  ∧ sub_days a a = 0.
Proof.
  intros Ha Hd.
  split; [by apply save_outcome |].
  split; [| split; [by vm_compute | unfold sub_days; lia]].
  intros a' d'. unfold update.
  set (self1 := setattrs (of_row stored) changes).
  assert (Ha1 : admission_date self1 = Some a').
  { subst self1 a'. cbn. by destruct (data_admission_date changes). }
  assert (Hd1 : discharge_date self1 = Some d').
  { subst self1 d'. cbn. by destruct (data_discharge_date changes). }
  pose proof (save_outcome now st self1 a' d' Ha1 Hd1) as Hout.
  destruct (save now st self1) as [e | [st' self']] eqn:Hsave.
  - destruct Hout as [H | [H | [H | [H | H]]]]; [done | | | |];
      subst self1; cbn in H;
      [destruct (data_patient changes)
      |destruct (data_hospital changes) | |]; discriminate.
  - destruct Hout as (id & row & Hpk & Hrow & Hra & Hrd & Hlos & _).
    exists row. repeat split; try done.
    apply save_inr in Hsave as (id' & _ & Hid & _ & _ & Hpk' & _).
    subst self1. cbn in Hid. congruence.
Qed.

Lemma save_length_of_stay_witness :
  match save 5 empty_store (sample_instance (Date 2026 1 1) (Date 2026 1 10)) with
  | inr (st', self') =>
      (row_length_of_stay_days <$> table st' !! 1%nat) = Some 9
      ∧ length_of_stay_days self' = Some 9
  | inl _ => False
  end
  ∧ match update 6 {| table := {[ 1%nat := sample_row 1 (Date 2026 1 5) 5 ]};
                      next_id := 2 |}
                 (of_row (sample_row 1 (Date 2026 1 5) 5))
                 (dates_only None (Some (Date 2026 1 10))) with
    | inr (st', _) =>
        (row_length_of_stay_days <$> table st' !! 1%nat) = Some 13
    | inl _ => False
    end.
Proof.
  pose proof (save_length_of_stay 5 empty_store
                (sample_instance (Date 2026 1 1) (Date 2026 1 10))
                (Date 2026 1 1) (Date 2026 1 10)
                (sample_row 1 (Date 2026 1 5) 5)
                (dates_only None (Some (Date 2026 1 10)))
                eq_refl eq_refl) as [H _].
  pose proof (save_length_of_stay 6
                {| table := {[ 1%nat := sample_row 1 (Date 2026 1 5) 5 ]};
                   next_id := 2 |}
                (sample_instance (Date 2026 1 1) (Date 2026 1 10))
                (Date 2026 1 1) (Date 2026 1 10)
                (sample_row 1 (Date 2026 1 5) 5)
                (dates_only None (Some (Date 2026 1 10)))
                eq_refl eq_refl) as (_ & H' & _).
  split.
  - destruct (save 5 empty_store _) as [e | [st' self']] eqn:E;
      [vm_compute in E; discriminate |].
    destruct H as (id & row & Hpk & Hrow & _ & _ & Hlos & Hself).
    assert (id = 1%nat) as ->.
    { vm_compute in E. injection E as <- <-. cbn in Hpk. congruence. }
    rewrite Hrow. cbn. rewrite Hlos, Hself. done.
  - cbn zeta in H'.
    destruct (update 6 _ _ _) as [e | [st' self']] eqn:E;
      [vm_compute in E; discriminate |].
    destruct H' as (row & Hrow & _ & _ & Hlos).
    change (row_id (sample_row 1 (Date 2026 1 5) 5)) with 1%nat in Hrow.
    rewrite Hrow. cbn. rewrite Hlos. done.
Defined.

(** C8. The derivation is idempotent. Computing the length of stay
    twice is the same as computing it once, and saving again a record
    that was just saved, its dates untouched, succeeds and leaves the
    same [length_of_stay_days] on the instance and in its row. *)
Theorem save_idempotent
    (now now' : Z) (st st1 : Store) (self self1 : DischargeSummary) :
  save now st self = inr (st1, self1) →
  set_length_of_stay (set_length_of_stay self) = set_length_of_stay self
  ∧ ∃ st2 self2 id row1 row2,
      save now' st1 self1 = inr (st2, self2)
      ∧ pk self1 = Some id ∧ pk self2 = Some id
      ∧ admission_date self2 = admission_date self1
      ∧ discharge_date self2 = discharge_date self1
      ∧ length_of_stay_days self2 = length_of_stay_days self1
      ∧ table st1 !! id = Some row1
      ∧ table st2 !! id = Some row2
      ∧ row_length_of_stay_days row2 = row_length_of_stay_days row1.
Proof.
  intros Hsave. split; [apply set_length_of_stay_idem |].
  apply save_inr in Hsave
    as (id & row & _ & -> & Hrow & Hpk & _ & _ & Hlos & Hpos).
  pose proof (to_row_Some _ _ _ Hrow)
    as (_ & Hp & Hh & Ha & Hd & Hl & Hu & Hc & _).
  pose proof (save_outcome now'
                {| table := <[id := row]> (table st);
                   next_id := Nat.max (next_id st) (S id) |}
                self1 _ _ Ha Hd) as Hout.
  destruct (save now' _ self1) as [e | [st2 self2]] eqn:Hsave2.
  - destruct Hout as [H | [H | [H | [H | H]]]]; [lia | | | |]; congruence.
  - destruct Hout as (id2 & row2 & Hpk2 & Hrow2 & _ & _ & Hlos2 & Hself2).
    unfold save in Hsave2.
    pose proof (Model_save_inr _ _ _ _ _ Hsave2)
      as (id' & row' & Hid' & _ & _ & _ & Hpk' & Ha2 & Hd2 & _).
    destruct (set_length_of_stay_dates self1) as (Ha1 & Hd1 & Hpk1 & _).
    rewrite Hpk1, Hpk in Hid'. cbn in Hid'. subst id'.
    assert (Hid2 : id2 = id) by congruence. rewrite Hid2 in *.
    exists st2, self2, id, row, row2. cbn.
    rewrite lookup_insert_eq.
    repeat split; try done; congruence.
Qed.

Lemma save_idempotent_witness :
  ∃ st2 self2,
    save 9 (Store_of_save (save 5 empty_store
              (sample_instance (Date 2026 1 1) (Date 2026 1 10))))
           (instance_of_save (save 5 empty_store
              (sample_instance (Date 2026 1 1) (Date 2026 1 10))))
    = inr (st2, self2)
    ∧ length_of_stay_days self2 = Some 9.
Proof.
  destruct (save_idempotent 5 9 empty_store
              (Store_of_save (save 5 empty_store
                 (sample_instance (Date 2026 1 1) (Date 2026 1 10))))
              (sample_instance (Date 2026 1 1) (Date 2026 1 10))
              (instance_of_save (save 5 empty_store
                 (sample_instance (Date 2026 1 1) (Date 2026 1 10))))
              eq_refl)
    as (_ & st2 & self2 & id & row1 & row2 & Hsave & _ & _ & _ & _ & Hlos & _).
  exists st2, self2. split; [exact Hsave |].
  rewrite Hlos. reflexivity.
Defined.

End SaveFacts.

(** ** Discharge summaries: what the endpoints can store *)

Section EndpointFacts.

Import Enrollment.

(** A property of rows that [save] establishes is kept by every request. *)
Lemma dispatch_preserves (P : Row → Prop) (now : Z) (user : nat)
    (st : Store) (req : Request) :
  (∀ now' st0 st' self self' id row,
     save now' st0 self = inr (st', self') →
     to_row id self' = Some row → P row) →
  map_Forall (λ _ row, P row) (table st) →
  map_Forall (λ _ row, P row) (table (dispatch now user st req).1).
Proof.
  intros Hsave Hinv.
  assert (Hstep : ∀ self, map_Forall (λ _ row, P row)
            (table (match save now st self with
                    | inl _ => st
                    | inr (st', _) => st'
                    end))).
  { intros self. destruct (save now st self) as [e | [st' self']] eqn:E; [done |].
    pose proof (save_inr _ _ _ _ _ E) as (id & row & _ & -> & Hrow & _).
    cbn. apply map_Forall_insert_2; [| done]. by eapply Hsave. }
  destruct req as [data | id data | id data | id]; cbn.
  - destruct (run_validation false data) as [e | vd]; [done |].
    unfold create. specialize (Hstep (Model_init user vd)).
    by destruct (save now st (Model_init user vd)) as [e | [st' obj]].
  - unfold perform_update.
    destruct (get_object st id) as [instance|]; [| done].
    destruct (run_validation false data) as [e | vd]; [done |].
    unfold update. specialize (Hstep (setattrs instance vd)).
    by destruct (save now st (setattrs instance vd)) as [e | [st' obj]].
  - unfold perform_update.
    destruct (get_object st id) as [instance|]; [| done].
    destruct (run_validation true data) as [e | vd]; [done |].
    unfold update. specialize (Hstep (setattrs instance vd)).
    by destruct (save now st (setattrs instance vd)) as [e | [st' obj]].
  - destruct (get_object st id); [| done].
    cbn. by apply map_Forall_delete.
Qed.

Lemma reachable_rows_derived (st : Store) :
  reachable st →
  map_Forall (λ _ row,
      0 <= row_length_of_stay_days row
      ∧ row_length_of_stay_days row
        = sub_days (row_discharge_date row) (row_admission_date row))
    (table st).
Proof.
  induction 1 as [| now user st req _ IH].
  - apply map_Forall_empty.
  - apply dispatch_preserves; [| done].
    intros now' st0 st' self self' id row Hsave Hrow.
    apply save_inr in Hsave as (id' & row' & _ & _ & Hrow' & Hpk & _ & _ & Hlos & Hpos).
    assert (Hsame : row_length_of_stay_days row = row_length_of_stay_days row'
                    ∧ row_discharge_date row = row_discharge_date row'
                    ∧ row_admission_date row = row_admission_date row').
    { apply to_row_Some in Hrow as (_ & _ & _ & Ha & Hd & Hl & _).
      apply to_row_Some in Hrow' as (_ & _ & _ & Ha' & Hd' & Hl' & _).
      repeat split; congruence. }
    destruct Hsame as (-> & -> & ->). done.
Qed.

(** An accepted write answers with the instance it stored. *)
Lemma dispatch_accepted (now : Z) (user : nat) (st : Store) (req : Request)
    (obj : DischargeSummary) :
  (dispatch now user st req).2 = Created obj
  ∨ (dispatch now user st req).2 = Ok obj →
  ∃ self, save now st self = inr ((dispatch now user st req).1, obj).
Proof.
  destruct req as [data | id data | id data | id]; cbn.
  - destruct (run_validation false data) as [e | vd]; [by intros [[=] | [=]] |].
    unfold create.
    destruct (save now st (Model_init user vd)) as [e | [st' obj']] eqn:E;
      cbn; [by intros [[=] | [=]] |].
    intros [[= ->] | [=]]. eauto.
  - unfold perform_update.
    destruct (get_object st id) as [instance|]; [| by intros [[=] | [=]]].
    destruct (run_validation false data) as [e | vd]; [by intros [[=] | [=]] |].
    unfold update.
    destruct (save now st (setattrs instance vd)) as [e | [st' obj']] eqn:E;
      cbn; [by intros [[=] | [=]] |].
    intros [[=] | [= ->]]. eauto.
  - unfold perform_update.
    destruct (get_object st id) as [instance|]; [| by intros [[=] | [=]]].
    destruct (run_validation true data) as [e | vd]; [by intros [[=] | [=]] |].
    unfold update.
    destruct (save now st (setattrs instance vd)) as [e | [st' obj']] eqn:E;
      cbn; [by intros [[=] | [=]] |].
    intros [[=] | [= ->]]. eauto.
  - destruct (get_object st id); by intros [[=] | [=]].
Qed.

(** C9. No store reachable through the endpoints holds a negative
    [length_of_stay_days], and every record a create or update request
    accepts comes back with a non-negative length of stay, the one of the
    row just written. *)
Theorem stored_length_of_stay_nonnegative
    (st : Store) (now : Z) (user : nat) (req : Request) :
  reachable st →
  (∀ id row, table st !! id = Some row → 0 <= row_length_of_stay_days row)
  ∧ ∀ obj,
      (dispatch now user st req).2 = Created obj
      ∨ (dispatch now user st req).2 = Ok obj →
      ∃ id row los,
        pk obj = Some id
        ∧ table (dispatch now user st req).1 !! id = Some row
        ∧ row_length_of_stay_days row = los
        ∧ length_of_stay_days obj = Some los
        ∧ 0 <= los.
Proof.
  intros Hreach. split.
  - intros id row Hrow.
    by destruct (reachable_rows_derived st Hreach id row Hrow).
  - intros obj Hresp.
    destruct (dispatch_accepted now user st req obj Hresp) as [self Hsave].
    apply save_inr in Hsave as (id & row & _ & Hst & Hrow & Hpk & _ & _ & _ & Hpos).
    exists id, row, (row_length_of_stay_days row).
    rewrite Hst. cbn. rewrite lookup_insert_eq.
    apply to_row_Some in Hrow as (_ & _ & _ & _ & _ & Hl & _).
    done.
Qed.

Lemma stored_length_of_stay_nonnegative_witness :
  ∃ row,
    table (dispatch 5 7 empty_store (Create same_day_payload)).1 !! 1%nat
      = Some row
    ∧ 0 <= row_length_of_stay_days row.
Proof.
  destruct (table (dispatch 5 7 empty_store (Create same_day_payload)).1
              !! 1%nat) as [row|] eqn:E; [| vm_compute in E; discriminate].
  exists row. split; [reflexivity |].
  apply (proj1 (stored_length_of_stay_nonnegative
                  (dispatch 5 7 empty_store (Create same_day_payload)).1
                  6 7 (Destroy 1)
                  (reachable_step 5 7 empty_store (Create same_day_payload)
                                  reachable_empty))
               1%nat row E).
Defined.

(** Validation alone does not give this: a partial update naming only an
    earlier discharge date passes [validate], and it is the column check
    that refuses the row. *)
Lemma partial_update_refused_by_column_check :
  let st := {| table := {[ 1%nat := sample_row 1 (Date 2026 1 5) 5 ]};
               next_id := 2 |} in
  run_validation true (dates_only None (Some (Date 2025 12 1)))
    = inr (dates_only None (Some (Date 2025 12 1)))
  ∧ dispatch 6 7 st (PartialUpdate 1 (dates_only None (Some (Date 2025 12 1))))
    = (st, ServerError (IntegrityError
                          "CHECK constraint failed: length_of_stay_days")).
Proof. split; by vm_compute. Qed.

End EndpointFacts.

(** ** Discharge summaries: the order of listings *)

Section OrderingFacts.

Import Enrollment.

Lemma preorder_compare_refl c x : preorder_compare c → c x x = Eq.
Proof.
  intros (Hopp & _ & _). specialize (Hopp x x).
  destruct (c x x); done.
Qed.

Lemma preorder_compare_eq_r c x y z :
  preorder_compare c → c y z = Eq → c x y = c x z.
Proof.
  intros (Hopp & Heq & _) Hyz.
  rewrite (Hopp y x), (Hopp z x). f_equal.
  apply Heq. done.
Qed.

Lemma preorder_compare_trans c x y z :
  preorder_compare c → c x y ≠ Gt → c y z ≠ Gt → c x z ≠ Gt.
Proof.
  intros Hc Hxy Hyz.
  destruct Hc as (Hopp & Heq & Hlt).
  destruct (c x y) eqn:Exy; [| | done].
  - by rewrite (Heq x y z Exy).
  - destruct (c y z) eqn:Eyz; [| | done].
    + rewrite <- (preorder_compare_eq_r c x y z); [by rewrite Exy | | done].
      by repeat split.
    + by rewrite (Hlt x y z Exy Eyz).
Qed.

Lemma preorder_compare_total c x y :
  preorder_compare c → c x y ≠ Gt ∨ c y x ≠ Gt.
Proof.
  intros (Hopp & _ & _). rewrite (Hopp x y).
  destruct (c x y); cbn; auto.
Qed.

Lemma preorder_compare_const : preorder_compare (λ _ _, Eq).
Proof. by repeat split. Qed.

Lemma preorder_compare_Z (key : Row → Z) :
  preorder_compare (λ x y, Z.compare (key x) (key y)).
Proof.
  repeat split.
  - intros x y. apply Z.compare_antisym.
  - intros x y z Hxy. apply Z.compare_eq in Hxy. by rewrite Hxy.
  - intros x y z. rewrite !Z.compare_lt_iff. lia.
Qed.

Lemma date_compare_Lt (a b : date) :
  date_compare a b = Lt ↔ date_lt a b = true.
Proof.
  unfold date_compare.
  destruct (date_lt a b); [done |]. destruct (date_lt b a); done.
Qed.

Lemma date_compare_Eq (a b : date) : date_compare a b = Eq ↔ a = b.
Proof.
  unfold date_compare. split.
  - destruct (date_lt a b) eqn:Eab; [done |].
    destruct (date_lt b a) eqn:Eba; [done |]. intros _.
    destruct (date_lt_trichotomy a b) as [H | [H | H]]; congruence.
  - intros ->. by rewrite date_lt_irrefl.
Qed.

Lemma date_compare_opp (a b : date) :
  date_compare b a = CompOpp (date_compare a b).
Proof.
  unfold date_compare.
  destruct (date_lt a b) eqn:Eab, (date_lt b a) eqn:Eba; try done.
  apply date_lt_spec in Eab. apply date_lt_spec in Eba. lia.
Qed.

Lemma preorder_compare_date (key : Row → date) :
  preorder_compare (λ x y, date_compare (key x) (key y)).
Proof.
  repeat split.
  - intros x y. apply date_compare_opp.
  - intros x y z Hxy. apply date_compare_Eq in Hxy. by rewrite Hxy.
  - intros x y z. rewrite !date_compare_Lt, !date_lt_spec. lia.
Qed.

Lemma preorder_compare_opp c :
  preorder_compare c → preorder_compare (λ x y, CompOpp (c x y)).
Proof.
  intros Hc. pose proof Hc as (Hopp & Heq & Hlt). repeat split.
  - intros x y. by rewrite (Hopp x y).
  - intros x y z Hxy. f_equal. apply Heq. by destruct (c x y).
  - intros x y z Hxy Hyz.
    assert (c y x = Lt) by (rewrite (Hopp x y); by destruct (c x y)).
    assert (c z y = Lt) by (rewrite (Hopp y z); by destruct (c y z)).
    rewrite (Hopp z x), (Hlt z y x); done.
Qed.

Lemma preorder_compare_lex c1 c2 :
  preorder_compare c1 → preorder_compare c2 →
  preorder_compare (λ x y, match c1 x y with Eq => c2 x y | r => r end).
Proof.
  intros H1 H2.
  pose proof H1 as (Hopp1 & Heq1 & Hlt1).
  pose proof H2 as (Hopp2 & Heq2 & Hlt2).
  repeat split.
  - intros x y. rewrite (Hopp1 x y), (Hopp2 x y). by destruct (c1 x y).
  - intros x y z Hxy.
    destruct (c1 x y) eqn:E1; [| done | done].
    by rewrite (Heq1 x y z E1), (Heq2 x y z Hxy).
  - intros x y z Hxy Hyz.
    destruct (c1 x y) eqn:Exy; [| | done];
      destruct (c1 y z) eqn:Eyz; try done.
    + rewrite (Heq1 x y z Exy), Eyz. by apply (Hlt2 x y z).
    + by rewrite (Heq1 x y z Exy), Eyz.
    + by rewrite <- (preorder_compare_eq_r c1 x y z H1 Eyz), Exy.
    + by rewrite (Hlt1 x y z Exy Eyz).
Qed.

Lemma preorder_compare_field field : preorder_compare (field_compare field).
Proof.
  unfold field_compare.
  destruct (decide (field = "discharge_date"%string));
    [apply (preorder_compare_date row_discharge_date) |].
  destruct (decide (field = "created_at"%string));
    [apply (preorder_compare_Z row_created_at) | apply preorder_compare_const].
Qed.

Lemma preorder_compare_term term : preorder_compare (term_compare term).
Proof.
  unfold term_compare. destruct term as [| c field].
  - apply preorder_compare_field.
  - destruct (decide (c = "-"%char)) as [-> | Hne].
    + apply preorder_compare_opp, preorder_compare_field.
    + assert (Heq : (λ x y : Row,
                match String c field with
                | String "-" f => CompOpp (field_compare f x y)
                | _ => field_compare (String c field) x y
                end) = field_compare (String c field)).
      { destruct c as [[] [] [] [] [] [] [] []]; done. }
      rewrite Heq. apply preorder_compare_field.
Qed.

Lemma preorder_compare_ordering terms :
  preorder_compare (ordering_compare terms).
Proof.
  induction terms as [| term rest IH]; cbn.
  - apply preorder_compare_const.
  - apply (preorder_compare_lex (term_compare term) (ordering_compare rest));
      [apply preorder_compare_term | done].
Qed.

Lemma ordered_before_trans terms : Transitive (ordered_before terms).
Proof.
  intros x y z. apply preorder_compare_trans, preorder_compare_ordering.
Qed.

Lemma ordered_before_total terms : Total (ordered_before terms).
Proof.
  intros x y. apply preorder_compare_total, preorder_compare_ordering.
Qed.

(** The merge sort gives one of the answers the store may give. *)
Lemma run_action_query_result (a : Action) (st : Store) :
  query_result (action_ordering a) (action_filter a) st (run_action a st).
Proof.
  split.
  - apply merge_sort_Permutation.
  - apply (@StronglySorted_merge_sort _ _ _
             (ordered_before_trans _) (ordered_before_total _)).
Qed.

Lemma ordering_compare_Meta (x y : Row) :
  ordering_compare Meta_ordering x y =
  match CompOpp (date_compare (row_discharge_date x) (row_discharge_date y)) with
  | Eq => CompOpp (Z.compare (row_created_at x) (row_created_at y))
  | c => c
  end.
Proof.
  unfold Meta_ordering, ordering_compare, term_compare, field_compare. simpl.
  destruct (CompOpp (date_compare _ _)); [| done | done].
  by destruct (CompOpp (Z.compare _ _)).
Qed.

Lemma ordering_compare_view (x y : Row) :
  ordering_compare ordering x y =
  CompOpp (date_compare (row_discharge_date x) (row_discharge_date y)).
Proof.
  unfold ordering, ordering_compare, term_compare, field_compare. simpl.
  by destruct (CompOpp (date_compare _ _)).
Qed.

Lemma date_compare_Gt (a b : date) :
  date_compare a b = Gt ↔ date_lt b a = true.
Proof.
  rewrite <- date_compare_Lt, (date_compare_opp a b).
  destruct (date_compare a b); done.
Qed.

Lemma ordered_before_Meta (x y : Row) :
  ordered_before Meta_ordering x y ↔ newest_first x y.
Proof.
  unfold ordered_before, newest_first. rewrite ordering_compare_Meta.
  rewrite <- date_compare_Gt, <- date_compare_Eq.
  destruct (date_compare (row_discharge_date x) (row_discharge_date y)); cbn.
  - destruct (Z.compare_spec (row_created_at x) (row_created_at y));
      cbn; split; try done; try (intros _; right; split; [done | lia]).
    intros [? | [_ ?]]; [done | lia].
  - split; [done |]. intros [? | [? _]]; done.
  - split; [| done]. intros _. by left.
Qed.

Lemma ordered_before_view (x y : Row) :
  ordered_before ordering x y ↔ discharge_date_descending x y.
Proof.
  unfold ordered_before, discharge_date_descending.
  rewrite ordering_compare_view.
  rewrite <- not_true_iff_false, <- date_compare_Lt.
  destruct (date_compare (row_discharge_date x) (row_discharge_date y));
    cbn; split; done.
Qed.

Lemma StronglySorted_weaken {A} (R S : A → A → Prop) (l : list A) :
  (∀ x y, R x y → S x y) → StronglySorted R l → StronglySorted S l.
Proof.
  intros HRS. induction 1 as [| x l _ IH Hall]; constructor; [done |].
  eapply Forall_impl; [exact Hall | auto].
Qed.

(** C7, as amended. A queryset that keeps the model's default ordering
    (the [high_risk], [recent] and [needs_follow_up] actions, and any
    plain query under [Meta.ordering]) is answered by discharge date
    descending, with creation time descending among equal discharge
    dates. The [list] action without an ordering parameter orders by the
    view's own default, which replaces the model's: its answer is by
    discharge date descending, and says nothing on equal dates. In both
    cases the answer is a permutation of the matching rows, and the
    sorted listing computed here is one such answer. *)
Theorem listing_order (a : Action) (st : Store) (result : list Row) :
  query_result (action_ordering a) (action_filter a) st result →
  match a with
  | list_action _ None => StronglySorted discharge_date_descending result
  | list_action _ (Some _) => True
  | high_risk | recent _ | needs_follow_up =>
      StronglySorted newest_first result
  end
  ∧ result ≡ₚ filter (λ r, action_filter a r = true) (rows st)
  ∧ query_result (action_ordering a) (action_filter a) st (run_action a st)
  ∧ ∀ matches plain,
      query_result Meta_ordering matches st plain →
      StronglySorted newest_first plain.
Proof.
  intros [Hperm Hsorted].
  split; [| split; [done | split; [apply run_action_query_result |]]].
  - destruct a as [matches [params |] | | cutoff |]; cbn in Hsorted;
      [done | | | |];
      eapply StronglySorted_weaken; try exact Hsorted;
      intros x y; try apply ordered_before_Meta; apply ordered_before_view.
  - intros matches plain [_ Hplain].
    eapply StronglySorted_weaken; [| exact Hplain].
    intros x y. apply ordered_before_Meta.
Qed.

Lemma listing_order_witness :
  StronglySorted newest_first (run_action needs_follow_up three_same_day)
  ∧ StronglySorted discharge_date_descending
      (run_action (list_action (λ _, true) None) three_same_day).
Proof.
  split.
  - apply (listing_order needs_follow_up three_same_day).
    apply run_action_query_result.
  - apply (listing_order (list_action (λ _, true) None) three_same_day).
    apply run_action_query_result.
Defined.

(** The claim as first worded, that every default listing breaks ties
    on the discharge date by creation time descending, does not hold for
    the [list] action: for the three summaries created at times 5, 6 and
    7 with the same discharge date, the listing that returns them in the
    order of their creation is a valid answer. *)
Lemma list_ties_not_by_creation_time :
  ¬ (∀ (st : Store) (matches : Row → bool) (result : list Row),
       reachable st →
       query_result (action_ordering (list_action matches None))
                    (action_filter (list_action matches None)) st result →
       StronglySorted newest_first result).
Proof.
  intros H.
  specialize (H three_same_day (λ _, true)
                (run_action (list_action (λ _, true) None) three_same_day)).
  assert (Hreach : reachable three_same_day)
    by (do 3 apply reachable_step; apply reachable_empty).
  specialize (H Hreach (run_action_query_result _ _)).
  revert H. apply (bool_decide_eq_false_1 _). by vm_compute.
Qed.

End OrderingFacts.

(** ** Patients: replacing the emergency contacts on update *)

Section ContactFacts.

Import Patients.

Lemma filter_none {A} (P : A → Prop) `{∀ x, Decision (P x)} (l : list A) :
  Forall (λ x, ¬ P x) l → filter P l = [].
Proof.
  induction 1 as [| x l Hx _ IH]; [done |].
  rewrite filter_cons. by destruct (decide (P x)).
Qed.

Lemma filter_all {A} (P : A → Prop) `{∀ x, Decision (P x)} (l : list A) :
  Forall P l → filter P l = l.
Proof.
  induction 1 as [| x l Hx _ IH]; [done |].
  rewrite filter_cons. destruct (decide (P x)); [by rewrite IH | done].
Qed.

Lemma create_contacts (now : Z) (instance : Patient)
    (contacts : list (gmap string value)) (st : Store) :
  emergency_contacts (fold_left (EmergencyContact_create now instance) contacts st)
    = emergency_contacts st
      ++ new_contacts now (patient_id instance) (next_contact_id st) contacts
  ∧ next_contact_id (fold_left (EmergencyContact_create now instance) contacts st)
    = (next_contact_id st + length contacts)%nat.
Proof.
  revert st. induction contacts as [| contact_data rest IH]; intros st; cbn.
  - rewrite app_nil_r. split; [done | lia].
  - destruct (IH (EmergencyContact_create now instance st contact_data))
      as [-> ->]. cbn. rewrite <- app_assoc. split; [done | lia].
Qed.

Lemma new_contacts_Forall (now : Z) (pk n : nat)
    (contacts : list (gmap string value)) :
  Forall (λ c, contact_patient c = pk
               ∧ (n <= contact_id c < n + length contacts)%nat)
         (new_contacts now pk n contacts).
Proof.
  revert n. induction contacts as [| contact_data rest IH]; intros n; cbn.
  - constructor.
  - constructor; [cbn; split; [done | lia] |].
    eapply Forall_impl; [apply IH |]. cbn. intros c [? ?]. split; [done | lia].
Qed.

Lemma new_contacts_attrs (now : Z) (pk n : nat)
    (contacts : list (gmap string value)) :
  contact_attrs <$> new_contacts now pk n contacts
  = (λ contact_data, stamp_created now (contact_data ∪ contact_defaults))
    <$> contacts.
Proof.
  revert n. induction contacts as [| contact_data rest IH]; intros n; cbn.
  - done.
  - by rewrite IH.
Qed.

(** The contact table after [update], by whether the list was given. *)
Lemma update_contacts (now : Z) (st : Store) (instance : Patient)
    (validated_data : PatientData) :
  emergency_contacts (update now st instance validated_data).1
  = match emergency_contacts_data validated_data with
    | Some contacts =>
        filter (λ c, contact_patient c ≠ patient_id instance)
               (emergency_contacts st)
        ++ new_contacts now (patient_id instance) (next_contact_id st) contacts
    | None => emergency_contacts st
    end
  ∧ next_contact_id (update now st instance validated_data).1
    = match emergency_contacts_data validated_data with
      | Some contacts => (next_contact_id st + length contacts)%nat
      | None => next_contact_id st
      end.
Proof.
  unfold update. cbn.
  set (instance2 := {| patient_id := patient_id instance; patient_attrs := _ |}).
  set (st1 := {| patients := _; addresses := addresses st;
                 emergency_contacts := emergency_contacts st;
                 next_address_id := next_address_id st;
                 next_contact_id := next_contact_id st |}).
  set (st2 := match address validated_data with
              | Some address_data => _
              | None => st1
              end).
  assert (H2 : emergency_contacts st2 = emergency_contacts st
               ∧ next_contact_id st2 = next_contact_id st).
  { subst st2. destruct (address validated_data) as [address_data|]; [| done].
    unfold has_address, Address_create. by destruct (existsb _ _). }
  destruct H2 as [Hc Hn].
  destruct (emergency_contacts_data validated_data) as [contacts|]; [| done].
  destruct (create_contacts now instance2 contacts (delete_contacts st2 instance2))
    as [-> ->].
  cbn. by rewrite Hc, Hn.
Qed.

(** C10. When the payload of [PatientDetailSerializer.update] carries an
    emergency-contact list, the patient's contacts afterwards are exactly
    the rows newly created from the payload, one per entry and in its
    order: every earlier contact of the patient is gone from the table
    and no new row reuses the key of an earlier one. When the list is
    missing the contact table is left as it was. In both cases the
    contacts of every other patient are untouched. *)
Theorem update_replaces_contacts
    (now : Z) (st : Store) (instance : Patient) (validated_data : PatientData) :
  store_wf st →
  match emergency_contacts_data validated_data with
  | Some contacts =>
      contacts_of (update now st instance validated_data).1
                  (patient_id instance)
        = new_contacts now (patient_id instance) (next_contact_id st) contacts
      ∧ contact_attrs <$> contacts_of (update now st instance validated_data).1
                                      (patient_id instance)
        = (λ contact_data,
             stamp_created now (contact_data ∪ contact_defaults)) <$> contacts
      ∧ (∀ old, old ∈ contacts_of st (patient_id instance) →
           old ∉ emergency_contacts (update now st instance validated_data).1)
      ∧ (∀ c old,
           c ∈ contacts_of (update now st instance validated_data).1
                           (patient_id instance) →
           old ∈ emergency_contacts st →
           contact_id c ≠ contact_id old)
  | None =>
      emergency_contacts (update now st instance validated_data).1
        = emergency_contacts st
  end
  ∧ (∀ other, other ≠ patient_id instance →
       contacts_of (update now st instance validated_data).1 other
         = contacts_of st other)
  ∧ store_wf (update now st instance validated_data).1.
Proof.
  intros Hwf. unfold store_wf in *.
  destruct (update_contacts now st instance validated_data) as [Hc Hn].
  unfold contacts_of. rewrite Hc, Hn.
  destruct (emergency_contacts_data validated_data) as [contacts|].
  - pose proof (new_contacts_Forall now (patient_id instance)
                  (next_contact_id st) contacts) as Hnew.
    assert (Hmine :
      filter (λ c, contact_patient c = patient_id instance)
        (filter (λ c, contact_patient c ≠ patient_id instance)
                (emergency_contacts st)
         ++ new_contacts now (patient_id instance) (next_contact_id st) contacts)
      = new_contacts now (patient_id instance) (next_contact_id st) contacts).
    { rewrite filter_app, list_filter_filter.
      rewrite filter_none, filter_all; [done | |].
      - eapply Forall_impl; [exact Hnew |]. by intros c [? _].
      - apply Forall_forall. intros c _ [? ?]. done. }
    split; [| split].
    + rewrite Hmine. split; [done |].
      split; [apply new_contacts_attrs |]. split.
      * intros old Hold Hin.
        apply list_elem_of_filter in Hold as [Hpk Hold].
        apply elem_of_app in Hin as [Hin | Hin].
        -- apply list_elem_of_filter in Hin as [Hne _]. done.
        -- rewrite Forall_forall in Hnew, Hwf.
           specialize (Hnew old Hin). specialize (Hwf old Hold). lia.
      * intros c old Hc' Hold.
        rewrite Forall_forall in Hnew, Hwf.
        specialize (Hnew c Hc'). specialize (Hwf old Hold). lia.
    + intros other Hother.
      rewrite filter_app, list_filter_filter_l by (intros c ->; done).
      rewrite (filter_none _ (new_contacts _ _ _ _)); [by rewrite app_nil_r |].
      eapply Forall_impl; [exact Hnew |]. intros c [-> _]. done.
    + apply Forall_app. split.
      * apply Forall_forall. intros c Hin.
        apply list_elem_of_filter in Hin as [_ Hin].
        rewrite Forall_forall in Hwf. specialize (Hwf c Hin). lia.
      * eapply Forall_impl; [exact Hnew |]. cbn. intros c [_ ?]. lia.
  - done.
Qed.

Lemma update_replaces_contacts_witness :
  contact_id <$> contacts_of (update 9 sample_store sample_patient sample_payload).1 1
  = [4%nat]
  ∧ contact_id <$> contacts_of (update 9 sample_store sample_patient sample_payload).1 2
    = [2%nat].
Proof.
  assert (Hwf : store_wf sample_store).
  { unfold store_wf, sample_store. cbn. repeat constructor. }
  pose proof (update_replaces_contacts 9 sample_store sample_patient
                sample_payload Hwf) as H.
  unfold sample_payload at 1 in H. cbn [emergency_contacts_data] in H.
  destruct H as ((Hmine & _) & Hother & _).
  split.
  - change (patient_id sample_patient) with 1%nat in Hmine.
    rewrite Hmine. reflexivity.
  - rewrite (Hother 2%nat); [reflexivity | discriminate].
Defined.

End ContactFacts.

(** ** Discharge summaries: further properties of the endpoints *)

Section EndpointExtras.

Import Enrollment.

Lemma toordinal_inj (a b : date) :
  valid_date a → valid_date b → toordinal a = toordinal b → a = b.
Proof.
  intros Ha Hb Heq.
  destruct (date_lt_trichotomy a b) as [H | [H | H]]; [| done |].
  - apply toordinal_lt in H; [lia | done | done].
  - apply toordinal_lt in H; [lia | done | done].
Qed.

Lemma validate_inr (data vd : DischargeData) :
  validate data = inr vd → vd = data.
Proof.
  unfold validate.
  destruct (match data_discharge_date data, data_admission_date data with
            | Some d, Some a => date_lt d a
            | _, _ => false
            end); [done |].
  destruct (truthy_bool _); [destruct (negb _) |]; congruence.
Qed.

Lemma run_validation_inr (partial : bool) (data vd : DischargeData) :
  run_validation partial data = inr vd →
  vd = data ∧ validate data = inr data
  ∧ (partial = false → missing_required data = []).
Proof.
  unfold run_validation. intros H.
  destruct partial.
  - pose proof (validate_inr _ _ H) as ->. done.
  - destruct (missing_required data); [| done].
    pose proof (validate_inr _ _ H) as ->. done.
Qed.

Lemma dispatch_create_inv (now : Z) (user : nat) (st st' : Store)
    (data : DischargeData) (resp : Response) :
  dispatch now user st (Create data) = (st', resp) →
  accepted resp = true →
  ∃ obj, resp = Created obj
         ∧ validate data = inr data
         ∧ missing_required data = []
         ∧ save now st (Model_init user data) = inr (st', obj).
Proof.
  cbn. destruct (run_validation false data) as [e | vd] eqn:Hv;
    [by intros [= <- <-] |].
  apply run_validation_inr in Hv as (-> & Hv & Hreq).
  unfold create.
  destruct (save now st (Model_init user data)) as [e | [st1 obj]];
    [by intros [= <- <-] |].
  intros [= <- <-] _. exists obj. auto.
Qed.

Lemma perform_update_inv (now : Z) (st st' : Store) (partial : bool)
    (id : nat) (data : DischargeData) (resp : Response) :
  perform_update now st partial id data = (st', resp) →
  accepted resp = true →
  ∃ old obj, resp = Ok obj
             ∧ table st !! id = Some old
             ∧ validate data = inr data
             ∧ save now st (setattrs (of_row old) data) = inr (st', obj).
Proof.
  unfold perform_update, get_object.
  destruct (table st !! id) as [old|]; cbn; [| by intros [= <- <-]].
  destruct (run_validation partial data) as [e | vd] eqn:Hv;
    [by intros [= <- <-] |].
  apply run_validation_inr in Hv as (-> & Hv & _).
  unfold update.
  destruct (save now st (setattrs (of_row old) data)) as [e | [st1 obj]] eqn:E;
    [by intros [= <- <-] |].
  intros [= <- <-] _. exists old, obj. auto.
Qed.

Ltac case_matches :=
  repeat match goal with
         | |- context [match ?x with _ => _ end] => destruct x eqn:?
         end.

(** A request that is not accepted leaves the store as it was. *)
Lemma dispatch_rejected (now : Z) (user : nat) (st : Store) (req : Request) :
  accepted (dispatch now user st req).2 = false →
  (dispatch now user st req).1 = st.
Proof.
  destruct req as [data | id data | id data | id];
    unfold dispatch, perform_update; case_matches; cbn; done.
Qed.

(** What an accepted request did: one [save], or one deletion. *)
Lemma dispatch_accepted_cases (now : Z) (user : nat) (st : Store) (req : Request) :
  accepted (dispatch now user st req).2 = true →
  match req with
  | Create data =>
      ∃ obj, dispatch now user st req
             = (( dispatch now user st req).1, Created obj)
             ∧ validate data = inr data
             ∧ missing_required data = []
             ∧ save now st (Model_init user data)
               = inr ((dispatch now user st req).1, obj)
  | Update id data | PartialUpdate id data =>
      ∃ old obj, dispatch now user st req
                 = ((dispatch now user st req).1, Ok obj)
                 ∧ table st !! id = Some old
                 ∧ validate data = inr data
                 ∧ save now st (setattrs (of_row old) data)
                   = inr ((dispatch now user st req).1, obj)
  | Destroy id =>
      is_Some (table st !! id)
      ∧ dispatch now user st req
        = ({| table := delete id (table st); next_id := next_id st |},
           NoContent)
  end.
Proof.
  intros Hacc.
  destruct (dispatch now user st req) as [st' resp] eqn:Hd. cbn in Hacc |- *.
  destruct req as [data | id data | id data | id].
  - destruct (dispatch_create_inv _ _ _ _ _ _ Hd Hacc) as (obj & -> & ? & ? & ?).
    exists obj. auto.
  - cbn in Hd.
    destruct (perform_update_inv _ _ _ _ _ _ _ Hd Hacc)
      as (old & obj & -> & ? & ? & ?).
    exists old, obj. auto.
  - cbn in Hd.
    destruct (perform_update_inv _ _ _ _ _ _ _ Hd Hacc)
      as (old & obj & -> & ? & ? & ?).
    exists old, obj. auto.
  - cbn in Hd. unfold get_object in Hd.
    destruct (table st !! id) as [old|]; cbn in Hd;
      injection Hd as <- <-; [| done].
    split; [by eexists | done].
Qed.

Lemma dispatch_cases (now : Z) (user : nat) (st : Store) (req : Request) :
  {accepted (dispatch now user st req).2 = true}
  + {accepted (dispatch now user st req).2 = false}.
Proof. destruct (accepted _); auto. Qed.

Lemma reachable_next_id_pos (st : Store) :
  reachable st → (0 < next_id st)%nat.
Proof.
  induction 1 as [| now user st req _ IH]; [cbn; lia |].
  destruct (dispatch_cases now user st req) as [Hacc | Hrej];
    [| by rewrite (dispatch_rejected _ _ _ _ Hrej)].
  pose proof (dispatch_accepted_cases _ _ _ _ Hacc) as Hc.
  destruct req as [data | id data | id data | id].
  - destruct Hc as (obj & _ & _ & _ & Hs).
    apply save_inr in Hs as (? & ? & _ & -> & _). cbn. lia.
  - destruct Hc as (old & obj & _ & _ & _ & Hs).
    apply save_inr in Hs as (? & ? & _ & -> & _). cbn. lia.
  - destruct Hc as (old & obj & _ & _ & _ & Hs).
    apply save_inr in Hs as (? & ? & _ & -> & _). cbn. lia.
  - destruct Hc as [_ ->]. done.
Qed.

(** Keys of a reachable store: a row sits under its own key, and every
    key in use was handed out by the counter. *)
Lemma reachable_keys (st : Store) :
  reachable st →
  ∀ id row, table st !! id = Some row →
            row_id row = id ∧ (0 < id < next_id st)%nat.
Proof.
  induction 1 as [| now user st req Hreach IH].
  - intros id row H. cbn in H. by rewrite lookup_empty in H.
  - assert (Hsave : ∀ self st' obj,
              save now st self = inr (st', obj) →
              (pk self = None ∨ ∃ old, pk self = Some (row_id old)
                                       ∧ table st !! row_id old = Some old) →
              ∀ id row, table st' !! id = Some row →
                        row_id row = id ∧ (0 < id < next_id st')%nat).
    { intros self st' obj Hs Hpk id row Hrow.
      pose proof (save_inr _ _ _ _ _ Hs) as (id0 & row0 & Hid0 & -> & Hrow0 & _).
      apply to_row_Some in Hrow0 as (Hrid & _).
      pose proof (reachable_next_id_pos st Hreach) as Hnext.
      cbn in Hrow |- *.
      destruct (decide (id0 = id)) as [<- | Hne].
      - rewrite lookup_insert_eq in Hrow. injection Hrow as <-.
        split; [done |].
        destruct Hpk as [Hpk | (old & Hpk & Hold)]; rewrite Hpk in Hid0;
          cbn in Hid0; [lia |].
        destruct (IH _ _ Hold) as [_ ?]. lia.
      - rewrite lookup_insert_ne in Hrow by done.
        destruct (IH _ _ Hrow) as [? ?]. split; [done | lia]. }
    destruct (dispatch_cases now user st req) as [Hacc | Hrej];
      [| by rewrite (dispatch_rejected _ _ _ _ Hrej)].
    pose proof (dispatch_accepted_cases _ _ _ _ Hacc) as Hc.
    destruct req as [data | id1 data | id1 data | id1].
    + destruct Hc as (obj & _ & _ & _ & Hs).
      apply (Hsave _ _ _ Hs). by left.
    + destruct Hc as (old & obj & _ & Hold & _ & Hs).
      apply (Hsave _ _ _ Hs). right. exists old.
      destruct (IH _ _ Hold) as [Hid _]. cbn. by rewrite Hid.
    + destruct Hc as (old & obj & _ & Hold & _ & Hs).
      apply (Hsave _ _ _ Hs). right. exists old.
      destruct (IH _ _ Hold) as [Hid _]. cbn. by rewrite Hid.
    + destruct Hc as [_ ->]. cbn.
      intros id row Hrow.
      destruct (decide (id1 = id)) as [-> | Hne];
        [by rewrite lookup_delete_eq in Hrow |].
      rewrite lookup_delete_ne in Hrow by done. by apply IH.
Qed.

Lemma to_row_plain (id : nat) (self : DischargeSummary) (row : Row) :
  to_row id self = Some row →
  row_follow_up_required row = follow_up_required self
  ∧ row_follow_up_timeframe row = follow_up_timeframe self
  ∧ row_risk_level row = risk_level self
  ∧ row_texts row = texts self.
Proof.
  unfold to_row.
  destruct (patient self), (hospital self), (admission_date self),
    (discharge_date self), (length_of_stay_days self), (created_by self),
    (created_at self), (updated_at self); try discriminate.
  intros [= <-]. done.
Qed.

Lemma set_length_of_stay_plain (self : DischargeSummary) :
  follow_up_required (set_length_of_stay self) = follow_up_required self
  ∧ follow_up_timeframe (set_length_of_stay self) = follow_up_timeframe self
  ∧ risk_level (set_length_of_stay self) = risk_level self
  ∧ texts (set_length_of_stay self) = texts self
  ∧ updated_at (set_length_of_stay self) = updated_at self.
Proof.
  unfold set_length_of_stay.
  destruct (admission_date self), (discharge_date self); done.
Qed.

(** The instance [save] hands back: the argument with its length of
    stay derived, its key set and its timestamps stamped. *)
Lemma save_inr_instance (now : Z) (st st' : Store) (self self' : DischargeSummary) :
  save now st self = inr (st', self') →
  self' = with_meta (set_length_of_stay self)
            (Some (default (next_id st) (pk self)))
            (if match pk self with
                | Some id => bool_decide (table st !! id = None)
                | None => true
                end
             then Some now else created_at self)
            (Some now).
Proof.
  unfold save, Model_save.
  destruct (set_length_of_stay_dates self) as (_ & _ & -> & _ & _ & _ & ->).
  destruct (to_row _ _) as [row|]; [| done].
  destruct (0 <=? row_length_of_stay_days row); [| done].
  by intros [= _ <-].
Qed.

(** X1. [is_high_risk] holds exactly for the risk levels high and
    critical, and the [high_risk] action lists exactly the stored
    summaries for which the property holds, newest first. *)
Theorem high_risk_listing (st : Store) (self : DischargeSummary) :
  (is_high_risk self = true
   ↔ risk_level self = "high"%string ∨ risk_level self = "critical"%string)
  ∧ run_action high_risk st
    ≡ₚ filter (λ r, is_high_risk (of_row r) = true) (rows st)
  ∧ StronglySorted newest_first (run_action high_risk st).
Proof.
  split; [| split].
  - unfold is_high_risk. rewrite bool_decide_eq_true.
    rewrite !elem_of_cons, elem_of_nil. tauto.
  - apply merge_sort_Permutation.
  - eapply StronglySorted_weaken; [intros x y; apply ordered_before_Meta |].
    apply (run_action_query_result high_risk st).
Qed.

(** X2. For a summary with a discharge date, [days_since_discharge] is
    the number of days from that date to today: negative exactly when
    the discharge date is in the future, zero exactly when it is today,
    positive exactly when it is past. Nothing clamps it. *)
Theorem days_since_discharge_sign
    (today : date) (self : DischargeSummary) (d : date) :
  discharge_date self = Some d →
  valid_date today → valid_date d →
  days_since_discharge today self = Some (toordinal today - toordinal d)
  ∧ (toordinal today - toordinal d < 0 ↔ date_lt today d = true)
  ∧ (toordinal today - toordinal d = 0 ↔ d = today)
  ∧ (0 < toordinal today - toordinal d ↔ date_lt d today = true).
Proof.
  intros Hd Ht Hv. unfold days_since_discharge. rewrite Hd.
  split; [done |].
  rewrite (toordinal_lt_iff today d Ht Hv), (toordinal_lt_iff d today Hv Ht).
  split; [lia |]. split; [| lia].
  split; [intros H; apply toordinal_inj; [done | done | lia] | intros ->; lia].
Qed.

Lemma days_since_discharge_sign_witness :
  days_since_discharge (Date 2026 3 1)
    (sample_instance (Date 2026 2 20) (Date 2026 2 28))
  = Some 1.
Proof.
  exact (proj1 (days_since_discharge_sign (Date 2026 3 1)
                  (sample_instance (Date 2026 2 20) (Date 2026 2 28))
                  (Date 2026 2 28) eq_refl eq_refl eq_refl)).
Defined.

(** X3. With the cutoff [days] days before today, the [recent] action
    keeps a summary exactly when its [days_since_discharge] is at most
    [days]; a summary dated after today is always kept when [days] is
    not negative. Its answer is a permutation of the kept rows. *)
Theorem recent_selects
    (today cutoff : date) (days : Z) (st : Store) (r : Row) :
  valid_date today → valid_date cutoff →
  valid_date (row_discharge_date r) →
  toordinal cutoff = toordinal today - days →
  (action_filter (recent cutoff) r = true
   ↔ ∃ n, days_since_discharge today (of_row r) = Some n ∧ n <= days)
  ∧ (0 <= days → date_lt today (row_discharge_date r) = true →
     action_filter (recent cutoff) r = true)
  ∧ (r ∈ run_action (recent cutoff) st
     ↔ r ∈ rows st
       ∧ sub_days today (row_discharge_date r) <= days).
Proof.
  intros Ht Hc Hr Hcut.
  assert (Hkeep : action_filter (recent cutoff) r = true
                  ↔ sub_days today (row_discharge_date r) <= days).
  { unfold action_filter. rewrite negb_true_iff.
    pose proof (toordinal_lt_iff (row_discharge_date r) cutoff Hr Hc) as Hlt.
    unfold sub_days.
    destruct (date_lt (row_discharge_date r) cutoff).
    - split; [done |]. intros ?. exfalso.
      assert (toordinal (row_discharge_date r) < toordinal cutoff) by by apply Hlt.
      lia.
    - split; [| done]. intros _.
      destruct (Z_lt_le_dec (toordinal (row_discharge_date r)) (toordinal cutoff))
        as [Hl | Hl]; [| lia].
      apply Hlt in Hl. done. }
  split; [| split].
  - rewrite Hkeep. unfold days_since_discharge. cbn.
    split; [intros ?; eexists; split; [done | done] |].
    by intros (n & [= <-] & ?).
  - intros Hdays Hfut. apply Hkeep.
    apply (toordinal_lt today _ Ht Hr) in Hfut. unfold sub_days. lia.
  - unfold run_action, order_by.
    rewrite merge_sort_Permutation, list_elem_of_filter, Hkeep. tauto.
Qed.

Lemma recent_selects_witness :
  action_filter (recent (Date 2026 2 22))
                (sample_row 1 (Date 2026 2 25) 5) = true.
Proof.
  apply (proj1 (recent_selects (Date 2026 3 1) (Date 2026 2 22) 7
                  empty_store (sample_row 1 (Date 2026 2 25) 5)
                  eq_refl eq_refl eq_refl eq_refl)).
  exists 4. split; [reflexivity | lia].
Defined.

(** X4. In every store reachable through the endpoints each row sits
    under its own key, below the key counter, its length of stay is the
    difference of its own two dates, and its discharge date is not
    before its admission date. *)
Theorem reachable_rows_consistent (st : Store) (id : nat) (row : Row) :
  reachable st →
  table st !! id = Some row →
  valid_date (row_admission_date row) →
  valid_date (row_discharge_date row) →
  row_id row = id
  ∧ (0 < id < next_id st)%nat
  ∧ row_length_of_stay_days row
    = toordinal (row_discharge_date row) - toordinal (row_admission_date row)
  ∧ date_lt (row_discharge_date row) (row_admission_date row) = false.
Proof.
  intros Hreach Hrow Ha Hd.
  destruct (reachable_keys st Hreach id row Hrow) as [Hid Hlt].
  destruct (reachable_rows_derived st Hreach id row Hrow) as [Hpos Hlos].
  repeat split; try done; try lia.
  apply sub_days_nonneg; [done | done | by rewrite <- Hlos].
Qed.

Lemma reachable_rows_consistent_witness :
  ∃ row, table three_same_day !! 2%nat = Some row
         ∧ row_length_of_stay_days row = 9.
Proof.
  destruct (table three_same_day !! 2%nat) as [row|] eqn:E;
    [| vm_compute in E; discriminate].
  exists row. split; [reflexivity |].
  assert (Hreach : reachable three_same_day)
    by (do 3 apply reachable_step; apply reachable_empty).
  assert (Hdates : row_admission_date row = Date 2026 1 1
                   ∧ row_discharge_date row = Date 2026 1 10).
  { vm_compute in E. injection E as <-. split; reflexivity. }
  destruct Hdates as [Ha Hd].
  assert (Hva : valid_date (row_admission_date row))
    by (rewrite Ha; reflexivity).
  assert (Hvd : valid_date (row_discharge_date row))
    by (rewrite Hd; reflexivity).
  destruct (reachable_rows_consistent three_same_day 2 row Hreach E Hva Hvd)
    as (_ & _ & Hlos & _).
  rewrite Hlos, Ha, Hd. reflexivity.
Defined.

(** X5. A request that is not accepted (a validation error, an unknown
    key, a row the table refuses) leaves the store exactly as it was;
    an update or a deletion of a key that is not stored answers
    not-found. *)
Theorem rejected_request_changes_nothing
    (now : Z) (user : nat) (st : Store) (req : Request) :
  accepted (dispatch now user st req).2 = false →
  (dispatch now user st req).1 = st
  ∧ (table st !! target st req = None →
     match req with
     | Create _ => True
     | _ => (dispatch now user st req).2 = NotFound
     end).
Proof.
  intros Hrej. split; [by apply dispatch_rejected |].
  intros Hnone.
  destruct req as [data | id data | id data | id]; [done | | |];
    cbn in Hnone |- *; unfold perform_update, get_object; by rewrite Hnone.
Qed.

Lemma rejected_request_changes_nothing_witness :
  (dispatch 8 7 three_same_day
     (PartialUpdate 2 (dates_only None (Some (Date 2025 12 1))))).1
  = three_same_day.
Proof.
  apply (rejected_request_changes_nothing 8 7 three_same_day
           (PartialUpdate 2 (dates_only None (Some (Date 2025 12 1))))).
  vm_compute. reflexivity.
Defined.

(** X6. In a reachable store a write request touches at most the row
    it is about: every other key keeps its row. The key a create writes
    is new, and the counter never goes back. *)
Theorem dispatch_frame
    (now : Z) (user : nat) (st : Store) (req : Request) (other : nat) :
  reachable st →
  other ≠ target st req →
  table (dispatch now user st req).1 !! other = table st !! other
  ∧ (next_id st <= next_id (dispatch now user st req).1)%nat
  ∧ match req with
    | Create _ => table st !! target st req = None
    | _ => True
    end.
Proof.
  intros Hreach Hother.
  assert (Hfresh : table st !! next_id st = None).
  { destruct (table st !! next_id st) as [row|] eqn:E; [| done].
    destruct (reachable_keys st Hreach _ _ E) as [_ ?]. lia. }
  split; [| split; [| by destruct req]].
  - destruct (dispatch_cases now user st req) as [Hacc | Hrej];
      [| by rewrite (dispatch_rejected _ _ _ _ Hrej)].
    pose proof (dispatch_accepted_cases _ _ _ _ Hacc) as Hc.
    destruct req as [data | id data | id data | id]; cbn in Hother.
    + destruct Hc as (obj & _ & _ & _ & Hs).
      apply save_inr in Hs as (id0 & row & Hid0 & -> & _). cbn in Hid0 |- *.
      subst id0. by rewrite lookup_insert_ne.
    + destruct Hc as (old & obj & _ & Hold & _ & Hs).
      destruct (reachable_keys st Hreach _ _ Hold) as [Hid _].
      apply save_inr in Hs as (id0 & row & Hid0 & -> & _). cbn in Hid0 |- *.
      rewrite Hid in Hid0. subst id0. by rewrite lookup_insert_ne.
    + destruct Hc as (old & obj & _ & Hold & _ & Hs).
      destruct (reachable_keys st Hreach _ _ Hold) as [Hid _].
      apply save_inr in Hs as (id0 & row & Hid0 & -> & _). cbn in Hid0 |- *.
      rewrite Hid in Hid0. subst id0. by rewrite lookup_insert_ne.
    + destruct Hc as [_ ->]. cbn. by rewrite lookup_delete_ne.
  - destruct (dispatch_cases now user st req) as [Hacc | Hrej];
      [| by rewrite (dispatch_rejected _ _ _ _ Hrej)].
    pose proof (dispatch_accepted_cases _ _ _ _ Hacc) as Hc.
    destruct req as [data | id data | id data | id].
    + destruct Hc as (obj & _ & _ & _ & Hs).
      apply save_inr in Hs as (id0 & row & _ & -> & _). cbn. lia.
    + destruct Hc as (old & obj & _ & _ & _ & Hs).
      apply save_inr in Hs as (id0 & row & _ & -> & _). cbn. lia.
    + destruct Hc as (old & obj & _ & _ & _ & Hs).
      apply save_inr in Hs as (id0 & row & _ & -> & _). cbn. lia.
    + destruct Hc as [_ ->]. done.
Qed.

Lemma dispatch_frame_witness :
  table (dispatch 8 7 three_same_day
           (PartialUpdate 2 (dates_only None (Some (Date 2026 1 20))))).1
    !! 3%nat
  = table three_same_day !! 3%nat.
Proof.
  apply (dispatch_frame 8 7 three_same_day
           (PartialUpdate 2 (dates_only None (Some (Date 2026 1 20)))) 3).
  - do 3 apply reachable_step. apply reachable_empty.
  - discriminate.
Defined.

(** X7. An accepted update of a stored summary, full or partial,
    rewrites the row under the same key: the creation time and the
    creator are kept, the update time is the time of the request, every
    column the payload names takes the payload's value and every column
    it leaves out keeps the stored one, and the length of stay is
    derived again from the dates the row now has. *)
Theorem update_keeps_what_is_not_named
    (now : Z) (user : nat) (st : Store) (partial : bool) (id : nat)
    (data : DischargeData) :
  reachable st →
  accepted (dispatch now user st
              (if partial then PartialUpdate id data else Update id data)).2
    = true →
  ∃ old new,
    table st !! id = Some old
    ∧ table (dispatch now user st
               (if partial then PartialUpdate id data else Update id data)).1
        !! id = Some new
    ∧ row_id new = id
    ∧ row_created_at new = row_created_at old
    ∧ row_created_by new = row_created_by old
    ∧ row_updated_at new = now
    ∧ row_patient new = default (row_patient old) (data_patient data)
    ∧ row_hospital new = default (row_hospital old) (data_hospital data)
    ∧ row_admission_date new
      = default (row_admission_date old) (data_admission_date data)
    ∧ row_discharge_date new
      = default (row_discharge_date old) (data_discharge_date data)
    ∧ row_follow_up_required new
      = default (row_follow_up_required old) (data_follow_up_required data)
    ∧ row_follow_up_timeframe new
      = default (row_follow_up_timeframe old) (data_follow_up_timeframe data)
    ∧ row_risk_level new
      = default (row_risk_level old) (data_risk_level data)
    ∧ row_texts new = data_texts data ∪ row_texts old
    ∧ row_length_of_stay_days new
      = sub_days (row_discharge_date new) (row_admission_date new).
Proof.
  intros Hreach Hacc.
  set (req := if partial then PartialUpdate id data else Update id data) in *.
  pose proof (dispatch_accepted_cases _ _ _ _ Hacc) as Hc.
  assert (Hc' : ∃ old obj,
             table st !! id = Some old
             ∧ save now st (setattrs (of_row old) data)
               = inr ((dispatch now user st req).1, obj)).
  { subst req. destruct partial; destruct Hc as (old & obj & _ & ? & _ & ?);
      by exists old, obj. }
  clear Hc. destruct Hc' as (old & obj & Hold & Hs).
  destruct (reachable_keys st Hreach _ _ Hold) as [Hid _].
  pose proof (save_inr_instance _ _ _ _ _ Hs) as Hobj.
  pose proof (save_inr _ _ _ _ _ Hs)
    as (id0 & new & Hid0 & Hst & Hnew & _ & _ & _ & Hlos & _).
  cbn in Hid0. rewrite Hid in Hid0. subst id0.
  exists old, new. rewrite Hst. cbn. rewrite lookup_insert_eq.
  cbn in Hobj. rewrite Hid, Hold in Hobj. cbn in Hobj.
  pose proof (to_row_Some _ _ _ Hnew)
    as (Hrid & Hp & Hh & Ha & Hd & _ & Hu & Hc & Hm).
  pose proof (to_row_plain _ _ _ Hnew) as (Hfr & Hft & Hrl & Htx).
  destruct (set_length_of_stay_dates (setattrs (of_row old) data))
    as (Ha' & Hd' & _ & Hp' & Hh' & Hu' & _).
  destruct (set_length_of_stay_plain (setattrs (of_row old) data))
    as (Hfr' & Hft' & Hrl' & Htx' & _).
  rewrite Hobj in Hp, Hh, Ha, Hd, Hu, Hc, Hm, Hfr, Hft, Hrl, Htx.
  cbn in Hp, Hh, Ha, Hd, Hu, Hc, Hm, Hfr, Hft, Hrl, Htx.
  rewrite Hp' in Hp. rewrite Hh' in Hh. rewrite Ha' in Ha.
  rewrite Hd' in Hd. rewrite Hu' in Hu.
  rewrite Hfr' in Hfr. rewrite Hft' in Hft. rewrite Hrl' in Hrl.
  rewrite Htx' in Htx. cbn in Hp, Hh, Ha, Hd, Hu, Hfr, Hft, Hrl, Htx.
  repeat split; try done; try congruence.
  - destruct (data_patient data); cbn in *; congruence.
  - destruct (data_hospital data); cbn in *; congruence.
  - destruct (data_admission_date data); cbn in *; congruence.
  - destruct (data_discharge_date data); cbn in *; congruence.
Qed.

Lemma update_keeps_what_is_not_named_witness :
  ∃ new,
    table (dispatch 8 7 three_same_day
             (PartialUpdate 2 (dates_only None (Some (Date 2026 1 20))))).1
      !! 2%nat = Some new
    ∧ row_created_at new = 6 ∧ row_updated_at new = 8.
Proof.
  destruct (update_keeps_what_is_not_named 8 7 three_same_day true 2
              (dates_only None (Some (Date 2026 1 20)))) as (old & new & H).
  - do 3 apply reachable_step. apply reachable_empty.
  - vm_compute. reflexivity.
  - destruct H as (Hold & Hnew & _ & Hc & _ & Hm & _).
    exists new. split; [exact Hnew |]. split; [| exact Hm].
    rewrite Hc. vm_compute in Hold. injection Hold as <-. reflexivity.
Defined.

(** X8. An accepted create writes one new row under the next key of
    the counter: created by the requesting user, created and updated at
    the time of the request, with the payload's values, the column
    defaults where the payload is silent (follow-up required, empty
    timeframe, medium risk), and the length of stay derived from the two
    dates. *)
Theorem create_stamps_and_defaults
    (now : Z) (user : nat) (st : Store) (data : DischargeData) :
  accepted (dispatch now user st (Create data)).2 = true →
  ∃ new p h a d,
    table (dispatch now user st (Create data)).1 !! next_id st = Some new
    ∧ next_id (dispatch now user st (Create data)).1 = S (next_id st)
    ∧ (dispatch now user st (Create data)).2 = Created (of_row new)
    ∧ data_patient data = Some p ∧ data_hospital data = Some h
    ∧ data_admission_date data = Some a ∧ data_discharge_date data = Some d
    ∧ row_id new = next_id st
    ∧ row_patient new = p ∧ row_hospital new = h
    ∧ row_admission_date new = a ∧ row_discharge_date new = d
    ∧ row_length_of_stay_days new = sub_days d a
    ∧ row_created_by new = user
    ∧ row_created_at new = now ∧ row_updated_at new = now
    ∧ row_follow_up_required new
      = default true (data_follow_up_required data)
    ∧ row_follow_up_timeframe new
      = default ""%string (data_follow_up_timeframe data)
    ∧ row_risk_level new
      = default "medium"%string (data_risk_level data)
    ∧ row_texts new = data_texts data ∪ text_defaults.
Proof.
  intros Hacc.
  destruct (dispatch_accepted_cases _ _ _ _ Hacc) as (obj & Hresp & _ & _ & Hs).
  pose proof (save_inr_instance _ _ _ _ _ Hs) as Hobj.
  pose proof (save_inr _ _ _ _ _ Hs)
    as (id0 & new & Hid0 & Hst & Hnew & _ & _ & _ & Hlos & _).
  cbn in Hid0. subst id0. cbn in Hobj.
  pose proof (to_row_Some _ _ _ Hnew)
    as (Hrid & Hp & Hh & Ha & Hd & Hl & Hu & Hc & Hm).
  pose proof (to_row_plain _ _ _ Hnew) as (Hfr & Hft & Hrl & Htx).
  destruct (set_length_of_stay_dates (Model_init user data))
    as (Ha' & Hd' & _ & Hp' & Hh' & Hu' & _).
  destruct (set_length_of_stay_plain (Model_init user data))
    as (Hfr' & Hft' & Hrl' & Htx' & _).
  assert (Hof : obj = of_row new).
  { destruct obj; cbn in *. unfold of_row.
    f_equal; try congruence.
    injection Hobj as -> _ _ _ _ _ _ _ _ _ _ _ _. by rewrite Hrid. }
  rewrite Hobj in Hp, Hh, Ha, Hd, Hu, Hc, Hm, Hfr, Hft, Hrl, Htx.
  cbn in Hp, Hh, Ha, Hd, Hu, Hc, Hm, Hfr, Hft, Hrl, Htx.
  rewrite Hp' in Hp. rewrite Hh' in Hh. rewrite Ha' in Ha.
  rewrite Hd' in Hd. rewrite Hu' in Hu.
  rewrite Hfr' in Hfr. rewrite Hft' in Hft. rewrite Hrl' in Hrl.
  rewrite Htx' in Htx. cbn in Hp, Hh, Ha, Hd, Hu, Hfr, Hft, Hrl, Htx.
  exists new, (row_patient new), (row_hospital new),
    (row_admission_date new), (row_discharge_date new).
  rewrite Hresp at 3. rewrite Hst. cbn. rewrite lookup_insert_eq.
  repeat split; try done; try congruence; lia.
Qed.

Lemma create_stamps_and_defaults_witness :
  ∃ new, table (dispatch 5 7 empty_store (Create same_day_payload)).1 !! 1%nat
         = Some new
         ∧ row_created_by new = 7%nat ∧ row_created_at new = 5.
Proof.
  destruct (create_stamps_and_defaults 5 7 empty_store same_day_payload)
    as (new & p & h & a & d & Hnew & _ & _ & _ & _ & _ & _ & _ & _ & _ & _ & _
        & _ & Hu & Hc & _).
  - vm_compute. reflexivity.
  - exists new. split; [exact Hnew |]. split; [exact Hu | exact Hc].
Defined.

(** X9. The follow-up rule is checked on the payload only. [validate]
    never raises the [follow_up_timeframe] error for a payload that does
    not name [follow_up_required]. When a create with such a payload is
    accepted, the row is stored with follow-up required (the column
    default) and with the payload's timeframe, the empty string when
    that is left out too; and a payload that names what was stored,
    follow-up required with an empty timeframe, is turned down by
    [validate]. *)
Theorem follow_up_default_is_not_validated
    (now : Z) (user : nat) (st : Store) (data : DischargeData) :
  data_follow_up_required data = None →
  validate data ≠ inl follow_up_timeframe_error
  ∧ (accepted (dispatch now user st (Create data)).2 = true →
     ∃ new,
       table (dispatch now user st (Create data)).1 !! next_id st = Some new
       ∧ row_follow_up_required new = true
       ∧ row_follow_up_timeframe new
         = default ""%string (data_follow_up_timeframe data)
       ∧ (row_follow_up_timeframe new = ""%string →
          validate (with_follow_up data (row_follow_up_required new)
                                   (row_follow_up_timeframe new))
          = inl follow_up_timeframe_error)).
Proof.
  intros Hfur. split.
  - unfold validate. rewrite Hfur. cbn [truthy_bool].
    destruct (match data_discharge_date data, data_admission_date data with
              | Some d, Some a => date_lt d a
              | _, _ => false
              end); [| done].
    unfold discharge_date_error, follow_up_timeframe_error. by intros [=].
  - intros Hacc.
    destruct (dispatch_accepted_cases _ _ _ _ Hacc)
      as (obj & _ & Hval & _ & Hs).
    pose proof (save_inr_instance _ _ _ _ _ Hs) as Hobj.
    pose proof (save_inr _ _ _ _ _ Hs) as (id0 & new & Hid0 & Hst & Hnew & _).
    cbn in Hid0. subst id0.
    pose proof (to_row_plain _ _ _ Hnew) as (Hfr & Hft & _).
    destruct (set_length_of_stay_plain (Model_init user data))
      as (Hfr' & Hft' & _).
    rewrite Hobj in Hfr, Hft. cbn in Hfr, Hft.
    rewrite Hfr' in Hfr. rewrite Hft' in Hft. cbn in Hfr, Hft.
    rewrite Hfur in Hfr. cbn in Hfr.
    exists new. rewrite Hst. cbn. rewrite lookup_insert_eq.
    split; [done |]. split; [done |]. split; [done |].
    intros Hempty. rewrite Hfr, Hempty.
    unfold validate in Hval |- *.
    cbn [with_follow_up data_discharge_date data_admission_date
         data_follow_up_required data_follow_up_timeframe
         truthy_bool truthy_str negb].
    destruct (match data_discharge_date data, data_admission_date data with
              | Some d, Some a => date_lt d a
              | _, _ => false
              end); done.
Qed.

Lemma follow_up_default_is_not_validated_witness :
  ∃ new,
    table (dispatch 5 7 empty_store
             (Create (sample_data (Some (Date 2026 1 1)) (Some (Date 2026 1 10))
                                  None None))).1 !! 1%nat = Some new
    ∧ row_follow_up_required new = true
    ∧ row_follow_up_timeframe new = ""%string
    ∧ validate (sample_data (Some (Date 2026 1 1)) (Some (Date 2026 1 10))
                            (Some true) (Some ""%string))
      = inl follow_up_timeframe_error.
Proof.
  destruct (follow_up_default_is_not_validated 5 7 empty_store
              (sample_data (Some (Date 2026 1 1)) (Some (Date 2026 1 10))
                           None None) eq_refl)
    as [_ H].
  destruct H as (new & Hnew & Hfr & Hft & Hrej); [by vm_compute |].
  exists new. split; [exact Hnew |]. split; [exact Hfr |].
  split; [exact Hft |].
  specialize (Hrej Hft). rewrite Hfr, Hft in Hrej. exact Hrej.
Defined.

End EndpointExtras.

(** ** Patients: further properties *)

Section PatientExtras.

Import Patients.

(** X10. The age is negative exactly when the birth date is after
    today, it never decreases as today moves forward, and it grows by
    one from any day to the same day of the next year. *)
Theorem age_sign_and_growth (date_of_birth today later : date) :
  (age date_of_birth today < 0 ↔ date_lt today date_of_birth = true)
  ∧ (date_lt later today = false →
     age date_of_birth today <= age date_of_birth later)
  ∧ age date_of_birth (Date (year today + 1) (month today) (day today))
    = age date_of_birth today + 1.
Proof.
  rewrite !age_unfold. cbn [year month day].
  split; [| split].
  - rewrite date_lt_spec. case_decide; lia.
  - intros Hnlt.
    destruct (date_lt_trichotomy today later) as [H | [<- | H]];
      [| lia | congruence].
    apply date_lt_spec in H. repeat case_decide; lia.
  - repeat case_decide; lia.
Qed.

Lemma create_contacts_frame (now : Z) (instance : Patient)
    (contacts : list (gmap string value)) (st : Store) :
  patients (fold_left (EmergencyContact_create now instance) contacts st)
    = patients st
  ∧ addresses (fold_left (EmergencyContact_create now instance) contacts st)
    = addresses st
  ∧ next_address_id (fold_left (EmergencyContact_create now instance) contacts st)
    = next_address_id st.
Proof.
  revert st. induction contacts as [| contact_data rest IH]; intros st;
    cbn; [done |].
  destruct (IH (EmergencyContact_create now instance st contact_data))
    as (-> & -> & ->). done.
Qed.

(** The patient table and the address table after [update]. *)
Lemma update_tables (now : Z) (st : Store) (instance : Patient)
    (validated_data : PatientData) :
  patients (update now st instance validated_data).1
  = <[patient_id instance :=
        stamp_updated now (fields validated_data ∪ patient_attrs instance)]>
      (patients st)
  ∧ (update now st instance validated_data).2
    = {| patient_id := patient_id instance;
         patient_attrs :=
           stamp_updated now (fields validated_data ∪ patient_attrs instance) |}
  ∧ addresses (update now st instance validated_data).1
    = match address validated_data with
      | Some address_data =>
          if has_address st instance
          then map (Address_update now instance address_data) (addresses st)
          else addresses st
               ++ [{| address_id := next_address_id st;
                      address_patient := patient_id instance;
                      address_attrs :=
                        stamp_created now (address_data ∪ address_defaults) |}]
      | None => addresses st
      end.
Proof.
  unfold update, Patient_save. cbn [fst snd].
  set (instance2 := {| patient_id := _; patient_attrs := stamp_updated _ _ |}).
  set (st1 := {| patients := _ |}).
  set (st2 := match address validated_data with
              | Some address_data => _
              | None => st1
              end).
  assert (H2 : patients st2 = patients st1
               ∧ addresses st2
                 = match address validated_data with
                   | Some address_data =>
                       if has_address st instance
                       then map (Address_update now instance address_data)
                                (addresses st)
                       else addresses st
                            ++ [{| address_id := next_address_id st;
                                   address_patient := patient_id instance;
                                   address_attrs :=
                                     stamp_created now
                                       (address_data ∪ address_defaults) |}]
                   | None => addresses st
                   end).
  { subst st2. destruct (address validated_data) as [address_data|]; [| done].
    change (has_address st1 instance2) with (has_address st instance).
    destruct (has_address st instance); done. }
  destruct H2 as [Hp Ha].
  destruct (emergency_contacts_data validated_data) as [contacts|]; cbn.
  - destruct (create_contacts_frame now instance2 contacts
                (delete_contacts st2 instance2)) as (-> & -> & _).
    cbn. by rewrite Hp, Ha.
  - by rewrite Hp, Ha.
Qed.

(** X11. [update] writes the patient's row under the same key: every
    attribute the payload names takes the payload's value, every other
    attribute keeps its value, [updated_at] becomes the time of the
    call, and the instance handed back is the row stored. No other
    patient's row changes. *)
Theorem update_patient_fields
    (now : Z) (st : Store) (instance : Patient) (validated_data : PatientData)
    (key : string) (other : nat) :
  patient_id (update now st instance validated_data).2 = patient_id instance
  ∧ patients (update now st instance validated_data).1 !! patient_id instance
    = Some (patient_attrs (update now st instance validated_data).2)
  ∧ patient_attrs (update now st instance validated_data).2 !! key
    = (if decide (key = "updated_at"%string) then Some (VDateTime now)
       else match fields validated_data !! key with
            | Some v => Some v
            | None => patient_attrs instance !! key
            end)
  ∧ (other ≠ patient_id instance →
     patients (update now st instance validated_data).1 !! other
     = patients st !! other).
Proof.
  destruct (update_tables now st instance validated_data) as (-> & -> & _).
  cbn. split; [done |]. split; [by rewrite lookup_insert_eq |]. split.
  - unfold stamp_updated. case_decide as Hk.
    + subst key. by rewrite lookup_insert_eq.
    + rewrite lookup_insert_ne by done. rewrite lookup_union.
      destruct (fields validated_data !! key), (patient_attrs instance !! key);
        done.
  - intros Hne. by rewrite lookup_insert_ne.
Qed.

Lemma has_address_false (st : Store) (instance : Patient) :
  has_address st instance = false ↔ addresses_of st (patient_id instance) = [].
Proof.
  unfold has_address, addresses_of.
  induction (addresses st) as [| a l IH]; [done |].
  rewrite filter_cons. cbn [existsb].
  destruct (Nat.eqb_spec (address_patient a) (patient_id instance)) as [He | Hne];
    cbn; case_decide; try done.
Qed.

Lemma addresses_of_update (now : Z) (instance : Patient)
    (address_data : gmap string value) (pk : nat) (l : list Address) :
  filter (λ a, address_patient a = pk)
         (map (Address_update now instance address_data) l)
  = map (Address_update now instance address_data)
        (filter (λ a, address_patient a = pk) l).
Proof.
  induction l as [| a l IH]; [done |].
  cbn [map]. rewrite !filter_cons.
  assert (Hp : address_patient (Address_update now instance address_data a)
               = address_patient a).
  { unfold Address_update. by destruct (Nat.eqb _ _). }
  rewrite Hp. case_decide; cbn; by rewrite IH.
Qed.

(** X12. When the payload of [update] carries address data and the
    patient has an address, that row is kept under its key and
    rewritten: payload entries win, other entries stay, [updated_at] is
    stamped. When the patient has none, one row is created under the
    next address key with the payload's entries and, for the columns the
    payload leaves out, the column defaults. Without address data
    the address table is untouched, and the addresses of other patients
    never change. *)
Theorem update_address
    (now : Z) (st : Store) (instance : Patient) (validated_data : PatientData)
    (other : nat) :
  match address validated_data with
  | Some address_data =>
      if has_address st instance
      then Forall2
             (λ old new,
                address_id new = address_id old
                ∧ address_patient new = patient_id instance
                ∧ ∀ key, address_attrs new !! key
                         = if decide (key = "updated_at"%string)
                           then Some (VDateTime now)
                           else match address_data !! key with
                                | Some v => Some v
                                | None => address_attrs old !! key
                                end)
             (addresses_of st (patient_id instance))
             (addresses_of (update now st instance validated_data).1
                           (patient_id instance))
      else addresses_of st (patient_id instance) = []
           ∧ addresses_of (update now st instance validated_data).1
                          (patient_id instance)
             = [{| address_id := next_address_id st;
                   address_patient := patient_id instance;
                   address_attrs :=
                     stamp_created now (address_data ∪ address_defaults) |}]
  | None =>
      addresses (update now st instance validated_data).1 = addresses st
  end
  ∧ (other ≠ patient_id instance →
     addresses_of (update now st instance validated_data).1 other
     = addresses_of st other).
Proof.
  destruct (update_tables now st instance validated_data) as (_ & _ & Ha).
  unfold addresses_of. rewrite Ha. clear Ha.
  destruct (address validated_data) as [address_data|]; [| done].
  destruct (has_address st instance) eqn:Hhas.
  - rewrite !addresses_of_update. split.
    + induction (addresses st) as [| a l IH]; [constructor |].
      rewrite filter_cons. case_decide as Hpk; [| done].
      cbn [map]. constructor; [| done].
      unfold Address_update. rewrite Hpk, Nat.eqb_refl. cbn.
      split; [done |]. split; [done |]. intros key.
      unfold stamp_updated. case_decide as Hk.
      * subst key. by rewrite lookup_insert_eq.
      * rewrite lookup_insert_ne by done. rewrite lookup_union.
        destruct (address_data !! key), (address_attrs a !! key); done.
    + intros Hne.
      induction (addresses st) as [| a l IH]; [done |].
      rewrite !filter_cons. case_decide as Hpk; cbn [map]; [| done].
      rewrite IH. f_equal. unfold Address_update.
      destruct (Nat.eqb_spec (address_patient a) (patient_id instance));
        [congruence | done].
  - apply has_address_false in Hhas. unfold addresses_of in Hhas.
    rewrite !filter_app, Hhas. cbn [app].
    split.
    + split; [done |]. rewrite filter_cons. cbn. by case_decide.
    + intros Hne. rewrite filter_cons. cbn.
      case_decide; [congruence |]. by rewrite app_nil_r.
Qed.

Lemma national_id_taken_iff (st : Store) (v : value) :
  national_id_taken st v = true
  ↔ ∃ i attrs, patients st !! i = Some attrs
               ∧ attrs !! "national_id"%string = Some v.
Proof.
  unfold national_id_taken. rewrite bool_decide_eq_true.
  apply map_Exists_lookup.
Qed.

(** What a successful [Patient.objects.create] wrote. *)
Lemma Patient_objects_create_inr (now : Z) (db db' : Db)
    (attrs : gmap string value) (patient : Patient) :
  Patient_objects_create now db attrs = inr (db', patient) →
  let row := <["enrolled_date" := VDateTime now]>
               (stamp_updated now (attrs ∪ patient_defaults)) in
  patient = {| patient_id := next_patient_id db; patient_attrs := row |}
  ∧ patients (store db')
    = <[next_patient_id db := row]> (patients (store db))
  ∧ addresses (store db') = addresses (store db)
  ∧ emergency_contacts (store db') = emergency_contacts (store db)
  ∧ next_address_id (store db') = next_address_id (store db)
  ∧ next_contact_id (store db') = next_contact_id (store db)
  ∧ next_patient_id db' = S (next_patient_id db)
  ∧ is_none (dict_get row "date_of_birth") = false
  ∧ national_id_taken (store db) (dict_get row "national_id") = false.
Proof.
  unfold Patient_objects_create. cbn zeta.
  destruct (is_none _) eqn:Hdob; [done |].
  destruct (national_id_taken _ _) eqn:Hid; [done |].
  intros [= <- <-]. done.
Qed.

Lemma created_row_lookup (now : Z) (attrs : gmap string value) (key : string) :
  key ≠ "enrolled_date"%string → key ≠ "updated_at"%string →
  (<["enrolled_date" := VDateTime now]>
     (stamp_updated now (attrs ∪ patient_defaults))) !! key
  = match attrs !! key with
    | Some v => Some v
    | None => patient_defaults !! key
    end.
Proof.
  intros H1 H2. unfold stamp_updated.
  rewrite !lookup_insert_ne by done. rewrite lookup_union.
  destruct (attrs !! key), (patient_defaults !! key); done.
Qed.

(** X13. [PatientDetailSerializer.create] either fails before writing
    anything (no date of birth, or a national identifier already
    stored), or creates the patient under the next key, enrolled by the
    requesting user and carrying the payload's attributes, appends one
    contact row per payload entry, and appends an address row (the
    payload's entries over the column defaults) exactly when the address
    data has at least one entry: an empty address dict creates none. *)
Theorem create_builds_patient
    (now : Z) (user : nat) (db : Db) (validated_data : PatientData) :
  match create now user db validated_data with
  | inr (db', patient) =>
      patient_id patient = next_patient_id db
      ∧ next_patient_id db' = S (next_patient_id db)
      ∧ patients (store db')
        = <[next_patient_id db := patient_attrs patient]>
            (patients (store db))
      ∧ patient_attrs patient !! "enrolled_by"%string
        = Some (VInt (Z.of_nat user))
      ∧ (∀ key v,
           fields validated_data !! key = Some v →
           key ∉ ["enrolled_by"; "enrolled_date"; "updated_at"]%string →
           patient_attrs patient !! key = Some v)
      ∧ emergency_contacts (store db')
        = emergency_contacts (store db)
          ++ new_contacts now (next_patient_id db)
               (next_contact_id (store db))
               (default [] (emergency_contacts_data validated_data))
      ∧ addresses (store db')
        = match address validated_data with
          | Some address_data =>
              if decide (address_data = ∅) then addresses (store db)
              else addresses (store db)
                   ++ [{| address_id := next_address_id (store db);
                          address_patient := next_patient_id db;
                          address_attrs :=
                            stamp_created now (address_data ∪ address_defaults) |}]
          | None => addresses (store db)
          end
  | inl _ =>
      dict_get (fields validated_data) "date_of_birth" = VNone
      ∨ ∃ i attrs,
          patients (store db) !! i = Some attrs
          ∧ attrs !! "national_id"%string
            = Some (default (VStr "") (fields validated_data !! "national_id"%string))
  end.
Proof.
  unfold create. cbn zeta.
  set (attrs := <["enrolled_by" := VInt (Z.of_nat user)]> (fields validated_data)).
  destruct (Patient_objects_create now db attrs) as [e | [db1 patient]] eqn:Hc.
  - unfold Patient_objects_create in Hc. cbn zeta in Hc.
    destruct (is_none _) eqn:Hdob.
    + left. unfold dict_get in Hdob |- *.
      rewrite created_row_lookup in Hdob by done.
      subst attrs. rewrite lookup_insert_ne in Hdob by done.
      destruct (fields validated_data !! "date_of_birth"%string) as [[]|];
        cbn in *; done.
    + destruct (national_id_taken _ _) eqn:Hid; [| done].
      right. apply national_id_taken_iff in Hid as (i & a & Hi & Ha).
      exists i, a. split; [done |]. rewrite Ha. f_equal.
      unfold dict_get. rewrite created_row_lookup by done.
      subst attrs. rewrite lookup_insert_ne by done.
      by destruct (fields validated_data !! "national_id"%string).
  - apply Patient_objects_create_inr in Hc
      as (-> & Hp & Ha & He & Hna & Hnc & Hnp & _ & _).
    set (row := <["enrolled_date" := VDateTime now]> _) in *.
    set (patient := {| patient_id := next_patient_id db; patient_attrs := row |}).
    set (st2 := if truthy_dict (address validated_data) then _ else store db1).
    assert (H2 : patients st2 = patients (store db1)
                 ∧ emergency_contacts st2 = emergency_contacts (store db1)
                 ∧ next_contact_id st2 = next_contact_id (store db1)
                 ∧ addresses st2
                   = match address validated_data with
                     | Some address_data =>
                         if decide (address_data = ∅) then addresses (store db)
                         else addresses (store db)
                              ++ [{| address_id := next_address_id (store db);
                                     address_patient := next_patient_id db;
                                     address_attrs :=
                                       stamp_created now
                                         (address_data ∪ address_defaults) |}]
                     | None => addresses (store db)
                     end).
    { subst st2. destruct (address validated_data) as [address_data|]; cbn;
        [| done].
      case_decide as Hempty; rewrite ?bool_decide_eq_true_2,
        ?bool_decide_eq_false_2 by done; cbn; [done |].
      by rewrite Ha, Hna. }
    destruct H2 as (Hp2 & He2 & Hnc2 & Ha2).
    destruct (create_contacts now patient
                (default [] (emergency_contacts_data validated_data)) st2)
      as [Hec _].
    destruct (create_contacts_frame now patient
                (default [] (emergency_contacts_data validated_data)) st2)
      as (Hpf & Haf & _).
    cbn [store next_patient_id patient_id patient_attrs].
    rewrite Hpf, Haf, Hec, Hp2, Hp, He2, He, Hnc2, Hnc, Ha2.
    repeat split; try done.
    + subst patient row attrs. cbn [patient_attrs].
      rewrite created_row_lookup by done.
      by rewrite lookup_insert_eq.
    + intros key v Hkey Hnot.
      rewrite !not_elem_of_cons in Hnot. destruct Hnot as (? & ? & ? & _).
      subst patient row attrs. cbn [patient_attrs].
      rewrite created_row_lookup by done.
      rewrite lookup_insert_ne by done. by rewrite Hkey.
Qed.

(** X14. [validate_national_id] turns down exactly the identifiers
    some stored patient holds. When [PatientCreateSerializer.create]
    succeeds on validated data that names the identifier [v], the
    patient is stored under the next key with that identifier, enrolled
    by the requesting user; [v] was free before (the check let it
    through) and is taken afterwards (the check now turns it down); the
    check answers as before for every other identifier; and no two
    stored patients share an identifier. *)
Theorem create_keeps_national_ids_unique
    (now : Z) (user : nat) (db db' : Db) (validated_data : gmap string value)
    (patient : Patient) (v w : string) :
  unique_national_ids (store db) →
  patients (store db) !! next_patient_id db = None →
  validated_data !! "national_id"%string = Some (VStr v) →
  PatientCreateSerializer_create now user db validated_data
  = inr (db', patient) →
  ((∃ e, validate_national_id (store db) w = inl e)
   ↔ ∃ i attrs, patients (store db) !! i = Some attrs
                ∧ attrs !! "national_id"%string = Some (VStr w))
  ∧ validate_national_id (store db) v = inr v
  ∧ patient_id patient = next_patient_id db
  ∧ patients (store db') !! next_patient_id db = Some (patient_attrs patient)
  ∧ patient_attrs patient !! "national_id"%string = Some (VStr v)
  ∧ patient_attrs patient !! "enrolled_by"%string
    = Some (VInt (Z.of_nat user))
  ∧ validate_national_id (store db') v
    = inl (FieldError "national_id"
             "A patient with this National ID already exists.")
  ∧ (w ≠ v →
     validate_national_id (store db') w = validate_national_id (store db) w)
  ∧ unique_national_ids (store db').
Proof.
  intros Huniq Hfresh Hv Hc.
  unfold PatientCreateSerializer_create in Hc.
  apply Patient_objects_create_inr in Hc
    as (-> & Hp & _ & _ & _ & _ & _ & _ & Hfree).
  set (row := <["enrolled_date" := VDateTime now]> _) in *.
  assert (Hrow : row !! "national_id"%string = Some (VStr v)).
  { subst row. rewrite created_row_lookup by done.
    rewrite lookup_insert_ne by done. by rewrite Hv. }
  assert (Hby : row !! "enrolled_by"%string = Some (VInt (Z.of_nat user))).
  { subst row. rewrite created_row_lookup by done.
    by rewrite lookup_insert_eq. }
  unfold dict_get in Hfree. rewrite Hrow in Hfree. cbn in Hfree.
  assert (Hclash : ∀ k ak, patients (store db) !! k = Some ak →
                           ak !! "national_id"%string = Some (VStr v) →
                           False).
  { intros k ak Hk Hak.
    assert (national_id_taken (store db) (VStr v) = true)
      by (apply national_id_taken_iff; eauto).
    congruence. }
  assert (Htaken : ∀ u, national_id_taken (store db') (VStr u) = true
                        ↔ u = v ∨ national_id_taken (store db) (VStr u) = true).
  { intros u. rewrite !national_id_taken_iff, Hp. split.
    - intros (i & attrs & Hi & Ha).
      destruct (decide (i = next_patient_id db)) as [-> | Hne].
      + rewrite lookup_insert_eq in Hi. injection Hi as <-.
        left. congruence.
      + rewrite lookup_insert_ne in Hi by done. right. eauto.
    - intros [-> | (i & attrs & Hi & Ha)].
      + exists (next_patient_id db), row. by rewrite lookup_insert_eq.
      + exists i, attrs. split; [| done].
        rewrite lookup_insert_ne; [done |]. intros <-. congruence. }
  split; [| split; [| split; [| split; [| split; [| split;
    [| split; [| split]]]]]]]; cbn [patient_id patient_attrs].
  - unfold validate_national_id. rewrite <- national_id_taken_iff.
    destruct (national_id_taken (store db) (VStr w)); split; try done; eauto.
    by intros [e ?].
  - unfold validate_national_id. by rewrite Hfree.
  - done.
  - rewrite Hp. by rewrite lookup_insert_eq.
  - done.
  - done.
  - unfold validate_national_id.
    rewrite (proj2 (Htaken v)); [done | by left].
  - intros Hne. unfold validate_national_id.
    destruct (national_id_taken (store db) (VStr w)) eqn:Hold.
    + rewrite (proj2 (Htaken w)); [done | by right].
    + destruct (national_id_taken (store db') (VStr w)) eqn:Hnew; [| done].
      apply Htaken in Hnew as [-> | Hnew]; [done | congruence].
  - intros i j ai aj u Hi Hj Hai Haj. rewrite Hp in Hi, Hj.
    destruct (decide (i = next_patient_id db)) as [-> | Hni],
      (decide (j = next_patient_id db)) as [-> | Hnj]; [done | | |].
    + rewrite lookup_insert_eq in Hi. rewrite lookup_insert_ne in Hj by done.
      injection Hi as <-. exfalso. apply (Hclash j aj Hj). congruence.
    + rewrite lookup_insert_eq in Hj. rewrite lookup_insert_ne in Hi by done.
      injection Hj as <-. exfalso. apply (Hclash i ai Hi). congruence.
    + rewrite lookup_insert_ne in Hi, Hj by done. by eapply Huniq.
Qed.

Lemma create_keeps_national_ids_unique_witness :
  ∃ db' patient,
    PatientCreateSerializer_create 5 7 sample_db
      (sample_validated "1234567890123456" "+250788123456")
    = inr (db', patient)
    ∧ patient_id patient = 2%nat
    ∧ validate_national_id (store db') "1234567890123456"
      = inl (FieldError "national_id"
               "A patient with this National ID already exists.")
    ∧ validate_national_id (store db') "1000000000000002"
      = inr "1000000000000002"%string
    ∧ unique_national_ids (store db').
Proof.
  destruct (PatientCreateSerializer_create 5 7 sample_db
              (sample_validated "1234567890123456" "+250788123456"))
    as [e | [db' patient]] eqn:Hc; [by vm_compute in Hc |].
  exists db', patient. split; [done |].
  assert (Huniq : unique_national_ids (store sample_db)).
  { intros i j ai aj u Hi Hj _ _. cbn in Hi, Hj.
    apply lookup_singleton_Some in Hi as [<- _].
    by apply lookup_singleton_Some in Hj as [<- _]. }
  destruct (create_keeps_national_ids_unique 5 7 sample_db db'
              (sample_validated "1234567890123456" "+250788123456") patient
              "1234567890123456" "1000000000000002"
              Huniq eq_refl eq_refl Hc)
    as (_ & _ & Hid & _ & _ & _ & Htaken & Hother & Hu).
  split; [exact Hid |]. split; [exact Htaken |]. split; [| exact Hu].
  rewrite Hother by done. by vm_compute.
Defined.

(** X15. [deactivate] and [activate] answer not-found for a key that is
    not stored. Otherwise they rewrite that patient's row only, changing
    nothing but [is_active] and [updated_at]: no other patient, address
    or emergency contact is touched, and nothing is deleted. Activating
    after deactivating gives back the row with [is_active] true. *)
Theorem set_is_active_is_soft
    (flag : bool) (now now' : Z) (st : Store) (pk other : nat) (key : string) :
  match set_is_active flag now st pk with
  | Some st' =>
      ∃ attrs attrs',
        patients st !! pk = Some attrs
        ∧ patients st' !! pk = Some attrs'
        ∧ attrs' !! "is_active"%string = Some (VBool flag)
        ∧ attrs' !! "updated_at"%string = Some (VDateTime now)
        ∧ (key ≠ "is_active"%string → key ≠ "updated_at"%string →
           attrs' !! key = attrs !! key)
        ∧ (other ≠ pk → patients st' !! other = patients st !! other)
        ∧ addresses st' = addresses st
        ∧ emergency_contacts st' = emergency_contacts st
        ∧ ∃ st'' attrs'',
            set_is_active (negb flag) now' st' pk = Some st''
            ∧ patients st'' !! pk = Some attrs''
            ∧ attrs'' !! "is_active"%string = Some (VBool (negb flag))
            ∧ (key ≠ "is_active"%string → key ≠ "updated_at"%string →
               attrs'' !! key = attrs !! key)
  | None => patients st !! pk = None
  end.
Proof.
  unfold set_is_active, get_object.
  destruct (patients st !! pk) as [attrs|] eqn:Hpk; [| done].
  cbn. unfold stamp_updated.
  exists attrs, (<["updated_at" := VDateTime now]>
                   (<["is_active" := VBool flag]> attrs)).
  rewrite !lookup_insert_eq. cbn.
  split; [done |]. split; [done |].
  split; [by rewrite lookup_insert_ne, lookup_insert_eq |].
  split; [done |].
  split; [intros; by rewrite !lookup_insert_ne |].
  split; [intros; by rewrite lookup_insert_ne |].
  split; [done |]. split; [done |].
  eexists _, (<["updated_at" := VDateTime now']>
                (<["is_active" := VBool (negb flag)]>
                   (<["updated_at" := VDateTime now]>
                      (<["is_active" := VBool flag]> attrs)))).
  split; [done |]. cbn. rewrite lookup_insert_eq. split; [done |].
  split; [by rewrite lookup_insert_ne, lookup_insert_eq |].
  intros. by rewrite !lookup_insert_ne.
Qed.

Lemma count_insert_fresh (field : string) (v : value)
    (m : gmap nat (gmap string value)) (i : nat) (a : gmap string value) :
  m !! i = None →
  size (filter (λ kv, kv.2 !! field = Some v) (<[i := a]> m))
  = ((if decide (a !! field = Some v) then 1 else 0)
     + size (filter (λ kv : nat * gmap string value, kv.2 !! field = Some v) m))%nat.
Proof.
  intros Hi. rewrite map_filter_insert. cbn.
  destruct (decide (a !! field = Some v)).
  - rewrite map_size_insert_None; [done |].
    apply map_lookup_filter_None. by left.
  - by rewrite delete_id.
Qed.

Lemma count_where_replace (field : string) (v : value) (st st' : Store)
    (pk : nat) (old new : gmap string value) :
  patients st !! pk = Some old →
  patients st' = <[pk := new]> (patients st) →
  count_where field v st'
  = count_where field v st
    - (if decide (old !! field = Some v) then 1 else 0)
    + (if decide (new !! field = Some v) then 1 else 0).
Proof.
  intros Hold Hnew. unfold count_where. rewrite Hnew.
  rewrite <- (insert_delete_id (patients st) pk old Hold) at 2.
  rewrite <- (insert_delete_eq (patients st) pk new).
  rewrite !count_insert_fresh by apply lookup_delete_eq.
  repeat case_decide; lia.
Qed.

Lemma gender_counts_bound (m : gmap nat (gmap string value)) :
  (size (filter (λ kv : nat * gmap string value,
                   kv.2 !! "gender"%string = Some (VStr "M")) m)
   + size (filter (λ kv : nat * gmap string value,
                     kv.2 !! "gender"%string = Some (VStr "F")) m)
   + size (filter (λ kv : nat * gmap string value,
                     kv.2 !! "gender"%string = Some (VStr "O")) m)
   <= size m)%nat
  ∧ (map_Forall (λ _ a, ∃ g, g ∈ GENDER_CHOICES
                          ∧ a !! "gender"%string = Some (VStr g)) m →
     (size (filter (λ kv : nat * gmap string value,
                      kv.2 !! "gender"%string = Some (VStr "M")) m)
      + size (filter (λ kv : nat * gmap string value,
                        kv.2 !! "gender"%string = Some (VStr "F")) m)
      + size (filter (λ kv : nat * gmap string value,
                        kv.2 !! "gender"%string = Some (VStr "O")) m)
      = size m)%nat).
Proof.
  induction m as [| i a m Hi IH] using map_ind.
  - rewrite !map_filter_empty, !map_size_empty. done.
  - rewrite !count_insert_fresh by done.
    rewrite map_size_insert_None by done.
    destruct IH as [IHle IHeq]. split.
    + repeat case_decide; try lia; congruence.
    + intros Hall.
      apply map_Forall_insert in Hall as [(g & Hg & Ha) Hall]; [| done].
      specialize (IHeq Hall).
      unfold GENDER_CHOICES in Hg. rewrite !elem_of_cons, elem_of_nil in Hg.
      destruct Hg as [-> | [-> | [-> | []]]];
        repeat case_decide; try lia; congruence.
Qed.

Lemma active_counts_split (m : gmap nat (gmap string value)) :
  (size (filter (λ kv : nat * gmap string value,
                   kv.2 !! "is_active"%string = Some (VBool true)) m)
   + size (filter (λ kv : nat * gmap string value,
                     ¬ kv.2 !! "is_active"%string = Some (VBool true)) m)
   = size m)%nat.
Proof.
  induction m as [| i a m Hi IH] using map_ind.
  - by rewrite !map_filter_empty, !map_size_empty.
  - rewrite !map_filter_insert. cbn.
    rewrite (map_size_insert_None i a m Hi).
    destruct (decide (a !! "is_active"%string = Some (VBool true)));
      destruct (decide (¬ a !! "is_active"%string = Some (VBool true)));
      try done.
    + rewrite delete_id by done.
      rewrite map_size_insert_None; [lia |].
      apply map_lookup_filter_None. by left.
    + rewrite delete_id by done.
      rewrite map_size_insert_None; [lia |].
      apply map_lookup_filter_None. by left.
Qed.

(** X16. The figures of [stats]: the active count lies between zero and
    the total, the inactive count is the number of patients whose
    [is_active] is not true, there is one figure per gender choice in
    the order M, F, O, and these add up to at most the total, to exactly
    the total when every patient's gender is one of the choices. *)
Theorem stats_counts (st : Store) :
  total_patients (stats st) = Z.of_nat (size (patients st))
  ∧ 0 <= active_patients (stats st) <= total_patients (stats st)
  ∧ inactive_patients (stats st)
    = Z.of_nat (size (filter (λ kv : nat * gmap string value,
                                ¬ kv.2 !! "is_active"%string = Some (VBool true))
                             (patients st)))
  ∧ (by_gender (stats st)).*1 = GENDER_CHOICES
  ∧ foldr Z.add 0 (by_gender (stats st)).*2 <= total_patients (stats st)
  ∧ (map_Forall (λ _ a, ∃ g, g ∈ GENDER_CHOICES
                          ∧ a !! "gender"%string = Some (VStr g))
                (patients st) →
     foldr Z.add 0 (by_gender (stats st)).*2 = total_patients (stats st)).
Proof.
  unfold stats, count_where. cbn.
  pose proof (map_size_filter
                (λ kv : nat * gmap string value,
                   kv.2 !! "is_active"%string = Some (VBool true))
                (patients st)) as Hle.
  pose proof (active_counts_split (patients st)) as Hsplit.
  destruct (gender_counts_bound (patients st)) as [Hg Hgeq].
  repeat split; try lia.
  intros Hall. specialize (Hgeq Hall). lia.
Qed.

(** X17. Deactivating a stored patient leaves the total and the gender
    figures of [stats] as they were, and moves one patient from the
    active to the inactive count exactly when the patient was active
    before. *)
Theorem deactivate_moves_one_count
    (now : Z) (st st' : Store) (pk : nat) (attrs : gmap string value) :
  deactivate now st pk = Some st' →
  patients st !! pk = Some attrs →
  total_patients (stats st') = total_patients (stats st)
  ∧ active_patients (stats st')
    = active_patients (stats st)
      - (if decide (attrs !! "is_active"%string = Some (VBool true))
         then 1 else 0)
  ∧ inactive_patients (stats st')
    = inactive_patients (stats st)
      + (if decide (attrs !! "is_active"%string = Some (VBool true))
         then 1 else 0)
  ∧ by_gender (stats st') = by_gender (stats st).
Proof.
  intros Hde Hpk.
  unfold deactivate, set_is_active, get_object in Hde. rewrite Hpk in Hde.
  cbn in Hde.
  set (new := stamp_updated now (<["is_active" := VBool false]> attrs)).
  assert (Hp : patients st' = <[pk := new]> (patients st))
    by (injection Hde as <-; done).
  clear Hde.
  assert (Htotal : size (patients st') = size (patients st)).
  { rewrite Hp. apply map_size_insert_Some. by eexists. }
  assert (Hactive : new !! "is_active"%string ≠ Some (VBool true)).
  { subst new. unfold stamp_updated.
    rewrite lookup_insert_ne by done. by rewrite lookup_insert_eq. }
  assert (Hgender : new !! "gender"%string = attrs !! "gender"%string).
  { subst new. unfold stamp_updated. by rewrite !lookup_insert_ne. }
  unfold stats. cbn [total_patients active_patients inactive_patients by_gender].
  rewrite Htotal.
  rewrite (count_where_replace "is_active" (VBool true) st st' pk attrs new Hpk Hp).
  rewrite (decide_False (P := new !! "is_active"%string = Some (VBool true)))
    by done.
  repeat split; try lia.
  unfold GENDER_CHOICES. cbn [map].
  rewrite !(count_where_replace "gender" _ st st' pk attrs new Hpk Hp).
  rewrite Hgender.
  repeat f_equal; repeat case_decide; lia.
Qed.

Lemma deactivate_moves_one_count_witness :
  active_patients
    (stats (default sample_store
              (deactivate 9
                 (default sample_store (activate 8 sample_store 1)) 1)))
  = active_patients
      (stats (default sample_store (activate 8 sample_store 1))) - 1.
Proof.
  destruct (deactivate_moves_one_count 9
              (default sample_store (activate 8 sample_store 1))
              (default sample_store
                 (deactivate 9
                    (default sample_store (activate 8 sample_store 1)) 1))
              1
              (<["updated_at" := VDateTime 8]>
                 (<["is_active" := VBool true]>
                    {[ "first_name"%string := VStr "John" ]}))
              eq_refl eq_refl) as (_ & H & _).
  exact H.
Defined.

End PatientExtras.

(** ** Field validators *)

Section ValidatorFacts.

Import Validators.

Variable is_decimal : N → bool.

Lemma consume_spec (a : atom) (n : nat) (s s' : list N) :
  consume is_decimal a n s = Some s'
  ↔ ∃ pre, s = pre ++ s' ∧ length pre = n
           ∧ Forall (λ c, atom_matches is_decimal a c = true) pre.
Proof.
  revert s. induction n as [| n IH]; intros s; cbn.
  - split.
    + intros [= ->]. by exists [].
    + intros (pre & -> & Hlen & _). by destruct pre.
  - destruct s as [| c s].
    + split; [done |]. intros (pre & Hs & Hlen & _). by destruct pre.
    + destruct (atom_matches is_decimal a c) eqn:Hc.
      * rewrite IH. split.
        -- intros (pre & -> & Hlen & Hall). exists (c :: pre).
           cbn. repeat split; [by rewrite Hlen | by constructor].
        -- intros (pre & Hs & Hlen & Hall).
           destruct pre as [| c' pre]; [done |].
           injection Hs as <- ->. exists pre.
           apply Forall_cons in Hall as [_ Hall].
           repeat split; [by injection Hlen | done].
      * split; [done |]. intros (pre & Hs & Hlen & Hall).
        destruct pre as [| c' pre]; [done |]. injection Hs as <- ->.
        apply Forall_cons in Hall as [Hc' _]. congruence.
Qed.

(** A pattern that begins with [^] can only match at position 0. *)
Lemma search_anchored (items : list item) (value : list N) :
  search is_decimal (AssertStart :: items) value
  = match_here is_decimal items true value.
Proof.
  unfold search.
  assert (Hno : ∀ s, search_from is_decimal (AssertStart :: items) false s = false).
  { induction s as [| c s IH]; cbn; [done | exact IH]. }
  destruct value as [| c s]; cbn; [by rewrite orb_false_r |].
  by rewrite Hno, orb_false_r.
Qed.

Lemma match_end (at_start : bool) (s : list N) :
  match_here is_decimal [AssertEnd] at_start s = true
  ↔ s = [] ∨ s = [10%N].
Proof.
  cbn. rewrite andb_true_r, orb_true_iff, !bool_decide_eq_true. done.
Qed.

Lemma national_id_search (value : list N) :
  search is_decimal national_id_regex value = true
  ↔ ∃ digits, length digits = 16%nat
              ∧ Forall (λ c, is_decimal c = true) digits
              ∧ (value = digits ∨ value = digits ++ [10%N]).
Proof.
  unfold national_id_regex. rewrite search_anchored.
  change (match_here is_decimal [Repeat Digit 16; AssertEnd] true value)
    with (match consume is_decimal Digit 16 value with
          | Some s' => match_here is_decimal [AssertEnd] false s'
          | None => false
          end).
  destruct (consume is_decimal Digit 16 value) as [s'|] eqn:Hc.
  - apply consume_spec in Hc as (pre & -> & Hlen & Hall).
    rewrite match_end. split.
    + intros [-> | ->]; exists pre; rewrite ?app_nil_r; auto.
    + intros (digits & Hlen' & _ & [Heq | Heq]).
      * left. apply (f_equal length) in Heq.
        rewrite length_app in Heq. destruct s'; [done | cbn in Heq; lia].
      * right. assert (Hpre : pre = digits ∧ s' = [10%N]); [| by destruct Hpre].
        apply app_inj_1; [lia | done].
  - split; [done |].
    intros (digits & Hlen & Hall & Hv).
    assert (Hsome : ∃ s', consume is_decimal Digit 16 value = Some s').
    { destruct Hv as [-> | ->].
      - exists []. apply consume_spec. exists digits.
        by rewrite app_nil_r.
      - exists [10%N]. apply consume_spec. by exists digits. }
    destruct Hsome as [s' Hs']. congruence.
Qed.

(** X18. The validators of [Patient.national_id] accept a value exactly
    when it consists of 16 decimal digits. The pattern alone would also
    accept 16 digits followed by one newline, since [$] matches before a
    final newline; the length limit of 16 rules that out. *)
Theorem national_id_sixteen_digits (value : list N) :
  (national_id_clean is_decimal value = true
   ↔ length value = 16%nat ∧ Forall (λ c, is_decimal c = true) value)
  ∧ (search is_decimal national_id_regex value = true
     ↔ ∃ digits, length digits = 16%nat
                 ∧ Forall (λ c, is_decimal c = true) digits
                 ∧ (value = digits ∨ value = digits ++ [10%N]))
  ∧ national_id_clean ascii_digit (of_ascii "1234567890123456") = true
  ∧ national_id_clean ascii_digit (of_ascii "123456789012345") = false
  ∧ national_id_clean ascii_digit (of_ascii "12345678901234567") = false
  ∧ national_id_clean ascii_digit (of_ascii "123456789012345A") = false.
Proof.
  split; [| split; [apply national_id_search | by vm_compute]].
  unfold national_id_clean, clean_char_field.
  destruct value as [| c s]; [split; [done | by intros [? _]] |].
  rewrite andb_true_iff, national_id_search, Nat.leb_le. split.
  - intros [(digits & Hlen & Hall & [Hv | Hv]) Hle].
    + rewrite Hv. done.
    + rewrite Hv, length_app in Hle. cbn in Hle. lia.
  - intros [Hlen Hall]. split; [| lia]. exists (c :: s). auto.
Qed.

Lemma digits_then_end (n : nat) (at_start : bool) (s : list N) :
  match_here is_decimal [Repeat Digit n; AssertEnd] at_start s = true
  ↔ ∃ digits, length digits = n
              ∧ Forall (λ c, is_decimal c = true) digits
              ∧ (s = digits ∨ s = digits ++ [10%N]).
Proof.
  change (match_here is_decimal [Repeat Digit n; AssertEnd] at_start s)
    with (match consume is_decimal Digit n s with
          | Some s' => match_here is_decimal [AssertEnd]
                         (at_start && Nat.eqb n 0) s'
          | None => false
          end).
  destruct (consume is_decimal Digit n s) as [s'|] eqn:Hc.
  - apply consume_spec in Hc as (pre & -> & Hlen & Hall).
    rewrite match_end. split.
    + intros [-> | ->]; exists pre; rewrite ?app_nil_r; auto.
    + intros (digits & Hlen' & _ & [Heq | Heq]).
      * left. apply (f_equal length) in Heq.
        rewrite length_app in Heq. destruct s'; [done | cbn in Heq; lia].
      * right. assert (Hpre : pre = digits ∧ s' = [10%N]); [| by destruct Hpre].
        apply app_inj_1; [lia | done].
  - split; [done |].
    intros (digits & Hlen & Hall & Hv).
    assert (Hsome : ∃ s', consume is_decimal Digit n s = Some s').
    { destruct Hv as [-> | ->].
      - exists []. apply consume_spec. exists digits.
        by rewrite app_nil_r.
      - exists [10%N]. apply consume_spec. by exists digits. }
    destruct Hsome as [s' Hs']. congruence.
Qed.

Lemma match_lit (l : N) (rest : list item) (at_start : bool) (s : list N) :
  match_here is_decimal (Repeat (Lit l) 1 :: rest) at_start s
  = match s with
    | c :: s' => N.eqb c l && match_here is_decimal rest false s'
    | [] => false
    end.
Proof.
  cbn. destruct s as [| c s']; [done |].
  destruct (N.eqb c l); [| done]. by rewrite andb_false_r.
Qed.

Lemma phone_search (value : list N) :
  search is_decimal phone_regex value = true
  ↔ ∃ digits, length digits = 9%nat
              ∧ Forall (λ c, is_decimal c = true) digits
              ∧ (value = of_ascii "+250" ++ digits
                 ∨ value = of_ascii "+250" ++ digits ++ [10%N]).
Proof.
  unfold phone_regex. rewrite search_anchored.
  change (of_ascii "+250") with [43%N; 50%N; 53%N; 48%N].
  assert (Hrefute : ∀ v : list N,
            (∀ digits, v ≠ [43%N; 50%N; 53%N; 48%N] ++ digits) →
            false = true
            ↔ ∃ digits, length digits = 9%nat
                        ∧ Forall (λ c, is_decimal c = true) digits
                        ∧ (v = [43%N; 50%N; 53%N; 48%N] ++ digits
                           ∨ v = [43%N; 50%N; 53%N; 48%N] ++ digits ++ [10%N])).
  { intros v Hv. split; [done |].
    intros (digits & _ & _ & [H | H]); [by destruct (Hv digits) |].
    destruct (Hv (digits ++ [10%N])). by rewrite H. }
  rewrite match_lit. destruct value as [| c1 value]; [by apply Hrefute |].
  destruct (N.eqb_spec c1 43) as [-> | H1]; cbn [andb];
    [| apply Hrefute; cbn; congruence].
  rewrite match_lit. destruct value as [| c2 value]; [by apply Hrefute |].
  destruct (N.eqb_spec c2 50) as [-> | H2]; cbn [andb];
    [| apply Hrefute; cbn; congruence].
  rewrite match_lit. destruct value as [| c3 value]; [by apply Hrefute |].
  destruct (N.eqb_spec c3 53) as [-> | H3]; cbn [andb];
    [| apply Hrefute; cbn; congruence].
  rewrite match_lit. destruct value as [| c4 value]; [by apply Hrefute |].
  destruct (N.eqb_spec c4 48) as [-> | H4]; cbn [andb];
    [| apply Hrefute; cbn; congruence].
  rewrite digits_then_end. split.
  - intros (digits & Hlen & Hall & [-> | ->]); exists digits; auto.
  - intros (digits & Hlen & Hall & [[= ->] | [= ->]]); exists digits; auto.
Qed.

(** X19. The validators of the phone fields accept a value exactly
    when it is [+250] followed by 9 decimal digits; the alternate phone
    may also be empty. [Hospital.phone_number], whose length limit is
    15, also accepts such a number followed by one newline, which [$]
    lets through. *)
Theorem phone_numbers_plus_250 (value : list N) :
  (phone_number_clean is_decimal value = true
   ↔ ∃ digits, length digits = 9%nat
               ∧ Forall (λ c, is_decimal c = true) digits
               ∧ value = of_ascii "+250" ++ digits)
  ∧ (alt_phone_number_clean is_decimal value = true
     ↔ value = [] ∨ phone_number_clean is_decimal value = true)
  ∧ (hospital_phone_number_clean is_decimal value = true
     ↔ ∃ digits, length digits = 9%nat
                 ∧ Forall (λ c, is_decimal c = true) digits
                 ∧ (value = of_ascii "+250" ++ digits
                    ∨ value = of_ascii "+250" ++ digits ++ [10%N]))
  ∧ phone_number_clean ascii_digit (of_ascii "+250788123456") = true
  ∧ phone_number_clean ascii_digit (of_ascii "0788123456") = false
  ∧ phone_number_clean ascii_digit (of_ascii "+251788123456") = false.
Proof.
  assert (Hlen4 : length (of_ascii "+250") = 4%nat) by done.
  split; [| split; [| split; [| by vm_compute]]].
  - unfold phone_number_clean, clean_char_field.
    destruct value as [| c s].
    { split; [done |]. intros (digits & _ & _ & H). discriminate H. }
    rewrite andb_true_iff, phone_search, Nat.leb_le. split.
    + intros [(digits & Hlen & Hall & [Hv | Hv]) Hle]; [by exists digits |].
      rewrite Hv, !length_app, Hlen4, Hlen in Hle. cbn in Hle. lia.
    + intros (digits & Hlen & Hall & Hv). split; [by exists digits; auto |].
      rewrite Hv, length_app, Hlen4, Hlen. lia.
  - unfold alt_phone_number_clean, phone_number_clean, clean_char_field.
    destruct value as [| c s]; [split; auto |].
    split; [by right | by intros [? | ?]].
  - unfold hospital_phone_number_clean, clean_char_field.
    destruct value as [| c s].
    { split; [done |]. intros (digits & _ & _ & [H | H]); discriminate H. }
    rewrite andb_true_iff, phone_search, Nat.leb_le. split.
    + by intros [? _].
    + intros (digits & Hlen & Hall & Hv). split; [by exists digits |].
      destruct Hv as [-> | ->]; rewrite !length_app, Hlen4, Hlen; cbn; lia.
Qed.

End ValidatorFacts.

(** ** Hospitals and deletions *)

Section ReferenceFacts.

Import Hospitals Deletion.

(** X20. [by_province] answers with an error exactly when the province
    parameter is missing or empty. Otherwise its answer is the answer of
    [active] narrowed to that province: a hospital is listed exactly
    when it is stored, lies in the province and has status active, so a
    pilot or inactive hospital is never listed. *)
Theorem by_province_lists_active
    (province_param : option string) (hospitals : list Hospital)
    (h : Hospital) :
  ((∃ msg, by_province province_param hospitals = inl msg)
   ↔ province_param = None ∨ province_param = Some ""%string)
  ∧ match by_province province_param hospitals with
    | inr answer =>
        ∃ p, province_param = Some p
             ∧ answer = filter (λ h, province h = p) (active hospitals)
             ∧ (h ∈ answer
                ↔ h ∈ hospitals ∧ province h = p
                  ∧ status h = "active"%string)
             ∧ (h ∈ answer → h ∈ active hospitals)
    | inl _ => True
    end.
Proof.
  destruct province_param as [[| c rest]|]; cbn.
  - split; [split; [auto | by eexists] | done].
  - split; [split; [by intros [? ?] | by intros [? | ?]] |].
    exists (String c rest). split; [done |].
    assert (Heq : filter (λ h0, province h0 = String c rest
                             ∧ status h0 = "active"%string) hospitals
                  = filter (λ h0, province h0 = String c rest)
                           (active hospitals)).
    { unfold active. by rewrite list_filter_filter. }
    split; [done |]. rewrite Heq.
    unfold active. rewrite !list_elem_of_filter. tauto.
  - split; [split; [auto | by eexists] | done].
Qed.

(** X21. Deleting a patient removes the patient together with every
    address, emergency contact and discharge summary that points to it,
    and nothing else: rows of other patients stay as they are, the
    hospitals are untouched, and if every reference pointed to a stored
    row before, it still does afterwards. *)
Theorem delete_patient_cascades (w : World) (pk other id : nat) :
  Patients.patients (patient_tables (delete_patient w pk)) !! pk = None
  ∧ Patients.addresses_of (patient_tables (delete_patient w pk)) pk = []
  ∧ Patients.contacts_of (patient_tables (delete_patient w pk)) pk = []
  ∧ (∀ row, Enrollment.table (summaries (delete_patient w pk)) !! id = Some row →
            Enrollment.row_patient row ≠ pk
            ∧ Enrollment.table (summaries w) !! id = Some row)
  ∧ (∀ row, Enrollment.table (summaries w) !! id = Some row →
            Enrollment.row_patient row ≠ pk →
            Enrollment.table (summaries (delete_patient w pk)) !! id = Some row)
  ∧ (other ≠ pk →
     Patients.patients (patient_tables (delete_patient w pk)) !! other
     = Patients.patients (patient_tables w) !! other
     ∧ Patients.addresses_of (patient_tables (delete_patient w pk)) other
       = Patients.addresses_of (patient_tables w) other
     ∧ Patients.contacts_of (patient_tables (delete_patient w pk)) other
       = Patients.contacts_of (patient_tables w) other)
  ∧ hospitals (delete_patient w pk) = hospitals w
  ∧ (references_ok w → references_ok (delete_patient w pk)).
Proof.
  unfold delete_patient, Patients.addresses_of, Patients.contacts_of,
    references_ok. cbn.
  split; [apply lookup_delete_eq |].
  split; [rewrite list_filter_filter; apply filter_none, Forall_forall;
          intros a _ [? ?]; done |].
  split; [rewrite list_filter_filter; apply filter_none, Forall_forall;
          intros a _ [? ?]; done |].
  split; [intros row Hrow; apply map_lookup_filter_Some in Hrow as [? ?];
          done |].
  split; [intros row Hrow Hne; by apply map_lookup_filter_Some |].
  split.
  - intros Hne. split; [by rewrite lookup_delete_ne |].
    split; apply list_filter_filter_l; intros x ->; done.
  - split; [done |].
    intros (Hs & Ha & Hc). split; [| split].
    + intros sid row Hrow.
      apply map_lookup_filter_Some in Hrow as [Hrow Hne]. cbn in Hne.
      destruct (Hs sid row Hrow) as [Hp Hh].
      split; [by rewrite lookup_delete_ne | done].
    + apply Forall_forall. intros a Hin.
      apply list_elem_of_filter in Hin as [Hne Hin].
      rewrite Forall_forall in Ha. rewrite lookup_delete_ne by done. auto.
    + apply Forall_forall. intros c Hin.
      apply list_elem_of_filter in Hin as [Hne Hin].
      rewrite Forall_forall in Hc. rewrite lookup_delete_ne by done. auto.
Qed.

(** X22. A hospital is refused deletion exactly when some stored
    discharge summary refers to it. A deletion that goes through removes
    that hospital only, leaves patients and summaries untouched, and
    keeps every reference pointing to a stored row. *)
Theorem delete_hospital_protected (w : World) (id : nat) :
  (delete_hospital w id = inl ProtectedError
   ↔ ∃ sid row, Enrollment.table (summaries w) !! sid = Some row
                ∧ Enrollment.row_hospital row = id)
  ∧ match delete_hospital w id with
    | inr w' =>
        summaries w' = summaries w
        ∧ patient_tables w' = patient_tables w
        ∧ (∀ h, h ∈ hospitals w' ↔ h ∈ hospitals w ∧ hospital_id h ≠ id)
        ∧ (references_ok w → references_ok w')
    | inl _ => True
    end.
Proof.
  unfold delete_hospital.
  pose proof (map_Exists_lookup (λ (_ : nat) r, Enrollment.row_hospital r = id)
                (Enrollment.table (summaries w))) as Hex.
  case_bool_decide as Hd.
  - split; [| done]. split; [intros _; by apply Hex | done].
  - split.
    + split; [done |]. intros H. destruct Hd. by apply Hex.
    + cbn. split; [done |]. split; [done |].
      split; [intros h; rewrite list_elem_of_filter; tauto |].
      intros (Hs & Ha & Hc). split; [| done].
      intros sid row Hrow. destruct (Hs sid row Hrow) as [Hp (h & Hin & Hid)].
      split; [done |]. exists h. split; [| done].
      apply list_elem_of_filter. split; [| done].
      intros Heq. apply Hd, Hex. exists sid, row. split; [done | congruence].
Qed.

End ReferenceFacts.
